(** * Vibe Triolingo: progression rules of the backend route handlers

    A shallow embedding of the Express/Prisma handlers of
    [backend/src/routes/lessons.ts], [backend/src/routes/users.ts] and
    [backend/src/routes/languages.ts]:

    - the relational store is a record of finite maps and row lists;
    - every awaited [prisma.*] call is one step of a small state-and-exception
      monad; a call may reject (a fault plan says which), and the handler's
      [try { ... } catch] turns a rejection into a 500 response while the
      writes made so far stay in the store;
    - [return res.status(..).json(..)] is an early reply.

    Numbers are [Z]: scores, points, experience, level and streak are whole
    numbers, and on whole numbers in the safe range [Math.floor (a / b)] for a
    positive [b] is [Z.div]. Column ranges are not modelled; a write the store
    refuses is one of the rejections a fault plan stands for. *)

From Stdlib Require Import ZArith Lia.
From stdpp Require Import base option list strings gmap pretty sorting.

#[local] Open Scope Z_scope.

(** ** Rows of the store *)

(** Only the columns the modelled handlers read or write are kept. Time stamps
    are milliseconds since the epoch ([Date.getTime]). *)

Module User.
Record t := mk {
  experience : Z;
  level : Z;
  streak : Z;
  lastLogin : option Z
}.
End User.

Module Language.
Record t := mk {
  isActive : bool
}.
End Language.

Module Lesson.
Record t := mk {
  title : string;
  languageId : string;
  isActive : bool
}.
End Lesson.

Module Exercise.
Record t := mk {
  lessonId : string;
  points : Z;
  isActive : bool
}.
End Exercise.

Module Enrollment.
Record t := mk {
  id : string;
  level : Z;
  isActive : bool;
  startedAt : Z
}.
End Enrollment.

Module Progress.
Record t := mk {
  enrollmentId : string;
  score : Z;
  timeSpent : Z;
  completed : bool;
  completedAt : Z
}.
End Progress.

Module Achievement.
Record t := mk {
  userId : string;
  type : string;
  title : string;
  description : string;
  icon : string
}.
End Achievement.

(** The store. [enrollments] and [progress] are keyed by their compound unique
    keys ([userId_languageId], [userId_lessonId]); [exercises] and
    [achievements] are row lists in insertion order. *)
Record DB := mkDB {
  users : gmap string User.t;
  languages : gmap string Language.t;
  lessons : gmap string Lesson.t;
  exercises : list Exercise.t;
  enrollments : gmap (string * string) Enrollment.t;
  progress : gmap (string * string) Progress.t;
  achievements : list Achievement.t
}.

(** ** Responses *)

Inductive Body :=
  | ErrorBody (error : string)
  | MessageBody (message : string)
  | EnrolledBody (message : string) (enrollment : Enrollment.t)
  | CompletedBody (message : string) (progress : Progress.t)
                  (experienceGained newLevel : Z)
  | StreakBody (streak : Z) (lastLogin : option Z).

Record Response := mkResponse {
  status : Z;
  body : Body
}.

(** ** The handler monad *)

(** [faults] is the fault plan: its n-th entry tells whether the n-th
    persistence call from now on rejects; past its end no call rejects. *)
Record World := mkWorld {
  db : DB;
  faults : list bool
}.

Definition healthy (d : DB) : World := mkWorld d [].

Inductive Step (A : Type) :=
  | Value (a : A)
  | Reply (r : Response)
  | Throw.
Arguments Value {A} a.
Arguments Reply {A} r.
Arguments Throw {A}.

Definition Handler (A : Type) : Type := World → Step A * World.

#[global] Instance handler_ret : MRet Handler := λ A a w, (Value a, w).

#[global] Instance handler_bind : MBind Handler := λ A B k m w,
  match m w with
  | (Value a, w') => k a w'
  | (Reply r, w') => (Reply r, w')
  | (Throw, w') => (Throw, w')
  end.

(** [return res.status(code).json(b)], and the final [res.json(b)]. *)
Definition reply {A} (code : Z) (b : Body) : Handler A :=
  λ w, (Reply (mkResponse code b), w).

(** One awaited persistence call. [op] answers [None] when the call itself
    rejects (an update of a row that is not there). *)
Definition prisma {A} (op : DB → option (A * DB)) : Handler A :=
  λ w, match faults w with
       | true :: fs => (Throw, mkWorld (db w) fs)
       | fs =>
           match op (db w) with
           | Some (a, d) => (Value a, mkWorld d (tail fs))
           | None => (Throw, mkWorld (db w) (tail fs))
           end
       end.

Definition query {A} (f : DB → A) : DB → option (A * DB) :=
  λ d, Some (f d, d).

(** [try { ... } catch (error) { res.status(500).json({ error }) }] *)
Definition try_catch (h : Handler Empty_set) (error : string)
    (w : World) : Response * World :=
  match h w with
  | (Value a, _) => match a with end
  | (Reply r, w') => (r, w')
  | (Throw, w') => (mkResponse 500 (ErrorBody error), w')
  end.

(** ** Persistence calls used by the handlers *)

Module Db.

(** [prisma.lesson.findUnique({ where: { id, isActive: true } })] *)
Definition lesson_findUnique_active (id : string) (d : DB) : option Lesson.t :=
  match lessons d !! id with
  | Some lesson => if Lesson.isActive lesson then Some lesson else None
  | None => None
  end.

(** [prisma.language.findUnique({ where: { id, isActive: true } })] *)
Definition language_findUnique_active (id : string) (d : DB) : option Language.t :=
  match languages d !! id with
  | Some language => if Language.isActive language then Some language else None
  | None => None
  end.

(** [prisma.enrollment.findUnique({ where: { userId_languageId } })] *)
Definition enrollment_findUnique (userId languageId : string) (d : DB)
    : option Enrollment.t :=
  enrollments d !! (userId, languageId).

(** [prisma.enrollment.findFirst({ where: { userId, languageId, isActive: true } })] *)
Definition enrollment_findFirst_active (userId languageId : string) (d : DB)
    : option Enrollment.t :=
  match enrollments d !! (userId, languageId) with
  | Some enrollment =>
      if Enrollment.isActive enrollment then Some enrollment else None
  | None => None
  end.

(** [prisma.exercise.findMany({ where: { lessonId, isActive: true } })] *)
Definition exercise_findMany_active (lessonId : string) (d : DB)
    : list Exercise.t :=
  filter (λ ex, Exercise.lessonId ex = lessonId ∧ Exercise.isActive ex = true)
         (exercises d).

(** [prisma.user.findUnique({ where: { id } })] *)
Definition user_findUnique (id : string) (d : DB) : option User.t :=
  users d !! id.

(** [prisma.achievement.findFirst({ where: { userId, type, title } })] *)
Definition achievement_findFirst (userId type title : string) (d : DB)
    : option Achievement.t :=
  head (filter (λ a, Achievement.userId a = userId
                     ∧ Achievement.type a = type
                     ∧ Achievement.title a = title)
               (achievements d)).

Definition set_users (f : gmap string User.t → gmap string User.t) (d : DB) : DB :=
  mkDB (f (users d)) (languages d) (lessons d) (exercises d)
       (enrollments d) (progress d) (achievements d).

Definition set_enrollments
    (f : gmap (string * string) Enrollment.t → gmap (string * string) Enrollment.t)
    (d : DB) : DB :=
  mkDB (users d) (languages d) (lessons d) (exercises d)
       (f (enrollments d)) (progress d) (achievements d).

Definition set_progress
    (f : gmap (string * string) Progress.t → gmap (string * string) Progress.t)
    (d : DB) : DB :=
  mkDB (users d) (languages d) (lessons d) (exercises d)
       (enrollments d) (f (progress d)) (achievements d).

Definition set_achievements
    (f : list Achievement.t → list Achievement.t) (d : DB) : DB :=
  mkDB (users d) (languages d) (lessons d) (exercises d)
       (enrollments d) (progress d) (f (achievements d)).

(** [prisma.user.update({ where: { id }, data })]: rejects when the row is
    absent. *)
Definition user_update (id : string) (data : User.t → User.t) (d : DB)
    : option (unit * DB) :=
  match users d !! id with
  | Some user => Some ((), set_users <[id := data user]> d)
  | None => None
  end.

(** [prisma.enrollment.update({ where: { id: enrollment.id }, data })]; the
    row is addressed through the compound key it was read with. *)
Definition enrollment_update (userId languageId : string)
    (data : Enrollment.t → Enrollment.t) (d : DB) : option (unit * DB) :=
  match enrollments d !! (userId, languageId) with
  | Some enrollment =>
      Some ((), set_enrollments <[(userId, languageId) := data enrollment]> d)
  | None => None
  end.

(** [prisma.enrollment.create({ data })]: rejects on a duplicate compound
    key. *)
Definition enrollment_create (userId languageId : string)
    (row : Enrollment.t) (d : DB) : option (Enrollment.t * DB) :=
  match enrollments d !! (userId, languageId) with
  | Some _ => None
  | None => Some (row, set_enrollments <[(userId, languageId) := row]> d)
  end.

(** [prisma.progress.upsert({ where: { userId_lessonId }, update, create })] *)
Definition progress_upsert (userId lessonId : string)
    (update : Progress.t → Progress.t) (create : Progress.t) (d : DB)
    : option (Progress.t * DB) :=
  let row := from_option update create (progress d !! (userId, lessonId)) in
  Some (row, set_progress <[(userId, lessonId) := row]> d).

(** [prisma.achievement.create({ data })] *)
Definition achievement_create (row : Achievement.t) (d : DB)
    : option (Achievement.t * DB) :=
  Some (row, set_achievements (λ l, l ++ [row]) d).

End Db.

(** ** POST /lessons/:id/complete *)

(** [exercises.reduce((sum, ex) => sum + ex.points, 0)] *)
Definition totalPoints (exercises : list Exercise.t) : Z :=
  fold_left (λ sum ex, sum + Exercise.points ex) exercises 0.

Definition levelUpAchievement (userId : string) (newLevel : Z) : Achievement.t :=
  Achievement.mk userId "level_up"
    ("Level " +:+ pretty newLevel +:+ "!")
    ("Congratulations! You've reached level " +:+ pretty newLevel)
    "🎉".

Definition perfectScoreTitle (lesson : Lesson.t) : string :=
  "Perfect Score in " +:+ Lesson.title lesson.

Definition perfectScoreAchievement (userId : string) (lesson : Lesson.t)
    : Achievement.t :=
  Achievement.mk userId "perfect_score"
    (perfectScoreTitle lesson)
    ("You got a perfect score in " +:+ Lesson.title lesson +:+ "!")
    "⭐".

(** [score] and [timeSpent] are the numbers the request body carries (the route
    validates neither), [now] stands for [new Date()]. *)
Definition completeLesson_body (lessonId userId : string)
    (score timeSpent now : Z) : Handler Empty_set :=
  (* Validate lesson exists *)
  lesson ← prisma (query (Db.lesson_findUnique_active lessonId));
  match lesson with
  | None => reply 404 (ErrorBody "Lesson not found")
  | Some lesson =>
  (* Get user's enrollment *)
  enrollment ← prisma (query
    (Db.enrollment_findFirst_active userId (Lesson.languageId lesson)));
  match enrollment with
  | None => reply 403 (ErrorBody "Not enrolled in this language")
  | Some enrollment =>
  (* Calculate total possible points *)
  exercises ← prisma (query (Db.exercise_findMany_active lessonId));
  let totalPoints := totalPoints exercises in
  let finalScore := Z.min score totalPoints in
  (* Create or update progress *)
  progress ← prisma (Db.progress_upsert userId lessonId
    (λ old, Progress.mk (Progress.enrollmentId old) finalScore timeSpent true now)
    (Progress.mk (Enrollment.id enrollment) finalScore timeSpent true now));
  (* Update user experience and level *)
  let experienceGained := finalScore / 10 in
  user ← prisma (query (Db.user_findUnique userId));
  match user with
  | Some user =>
      let newExperience := User.experience user + experienceGained in
      let newLevel := newExperience / 100 + 1 in
      prisma (Db.user_update userId (λ u,
        User.mk newExperience newLevel (User.streak u) (User.lastLogin u)));;
      (* Check for level up achievement *)
      if bool_decide (newLevel > User.level user) then
        prisma (Db.achievement_create (levelUpAchievement userId newLevel));;
        mret ()
      else mret ()
  | None => mret ()
  end;;
  (* Check for perfect score achievement *)
  (if bool_decide (finalScore = totalPoints) then
     existingAchievement ← prisma (query
       (Db.achievement_findFirst userId "perfect_score" (perfectScoreTitle lesson)));
     match existingAchievement with
     | None =>
         prisma (Db.achievement_create (perfectScoreAchievement userId lesson));;
         mret ()
     | Some _ => mret ()
     end
   else mret ());;
  reply 200 (CompletedBody "Lesson completed successfully" progress
    experienceGained
    match user with
    | Some user => (User.experience user + experienceGained) / 100 + 1
    | None => 1
    end)
  end
  end.

Definition completeLesson (lessonId userId : string) (score timeSpent now : Z)
    : World → Response * World :=
  try_catch (completeLesson_body lessonId userId score timeSpent now)
            "Failed to complete lesson".

(** ** GET /users/streak *)

(** [1000 * 60 * 60 * 24] *)
Definition msPerDay : Z := 1000 * 60 * 60 * 24.

(** [Math.floor((today.getTime() - lastLogin.getTime()) / msPerDay)]. The
    quotient is an IEEE double in the source; for time stamps in the range of
    [Date] it is below 1, equal to 1 or above 1 exactly when the integer
    quotient is, which is all the handler looks at. *)
Definition daysSinceLastLogin (today lastLogin : Z) : Z :=
  (today - lastLogin) / msPerDay.

Definition setStreak (newStreak : Z) (u : User.t) : User.t :=
  User.mk (User.experience u) (User.level u) newStreak (User.lastLogin u).

(** The local object [user] is mutated by the handler ([user.streak = ...]);
    its [streak] field is threaded here as the value handed from one statement
    to the next, next to the flag [shouldUpdateStreak]. *)
Definition getStreak_body (userId : string) (today : Z) : Handler Empty_set :=
  user ← prisma (query (Db.user_findUnique userId));
  match user with
  | None => reply 404 (ErrorBody "User not found")
  | Some user =>
  (* Check if user logged in today to maintain streak *)
  let lastLogin := User.lastLogin user in
  '(shouldUpdateStreak, streak) ←
    match lastLogin with
    | Some lastLogin =>
        let daysSinceLastLogin := daysSinceLastLogin today lastLogin in
        if bool_decide (daysSinceLastLogin = 1) then
          (* User logged in yesterday, increment streak *)
          mret (true, User.streak user)
        else if bool_decide (daysSinceLastLogin > 1) then
          (* User missed a day, reset streak *)
          prisma (Db.user_update userId (setStreak 0));;
          mret (false, 0)
        else mret (false, User.streak user)
    | None =>
        (* First time login *)
        mret (true, User.streak user)
    end;
  streak ←
    (if shouldUpdateStreak : bool then
       let newStreak := streak + 1 in
       prisma (Db.user_update userId (setStreak newStreak));;
       mret newStreak
     else mret streak);
  reply 200 (StreakBody streak (User.lastLogin user))
  end.

Definition getStreak (userId : string) (today : Z) : World → Response * World :=
  try_catch (getStreak_body userId today) "Failed to fetch streak".

(** ** POST and DELETE /languages/:id/enroll *)

(** [freshId] and [now] stand for the column defaults the store fills in for a
    new row ([id], [startedAt]) and for [new Date()]. *)
Definition enroll_body (languageId userId freshId : string) (now : Z)
    : Handler Empty_set :=
  (* Check if language exists *)
  language ← prisma (query (Db.language_findUnique_active languageId));
  match language with
  | None => reply 404 (ErrorBody "Language not found")
  | Some _ =>
  (* Check if user is already enrolled *)
  existingEnrollment ← prisma (query (Db.enrollment_findUnique userId languageId));
  match existingEnrollment with
  | Some existingEnrollment =>
      if Enrollment.isActive existingEnrollment then
        reply 400 (ErrorBody "Already enrolled in this language")
      else
        (* Reactivate enrollment *)
        prisma (Db.enrollment_update userId languageId (λ e,
          Enrollment.mk (Enrollment.id e) (Enrollment.level e) true now));;
        reply 200 (MessageBody "Enrollment reactivated")
  | None =>
      (* Create new enrollment *)
      enrollment ← prisma (Db.enrollment_create userId languageId
        (Enrollment.mk freshId 1 true now));
      reply 201 (EnrolledBody "Successfully enrolled in language" enrollment)
  end
  end.

Definition enroll (languageId userId freshId : string) (now : Z)
    : World → Response * World :=
  try_catch (enroll_body languageId userId freshId now) "Enrollment failed".

Definition unenroll_body (languageId userId : string) : Handler Empty_set :=
  enrollment ← prisma (query (Db.enrollment_findUnique userId languageId));
  match enrollment with
  | None => reply 404 (ErrorBody "Enrollment not found")
  | Some enrollment =>
      (* Soft delete by setting isActive to false *)
      prisma (Db.enrollment_update userId languageId (λ e,
        Enrollment.mk (Enrollment.id e) (Enrollment.level e) false
                      (Enrollment.startedAt e)));;
      reply 200 (MessageBody "Successfully unenrolled from language")
  end.

Definition unenroll (languageId userId : string) : World → Response * World :=
  try_catch (unenroll_body languageId userId) "Unenrollment failed".

(** ** The operations in scope, and the notions the properties are about *)

Inductive Operation :=
  | CompleteLesson (lessonId userId : string) (score timeSpent now : Z)
  | GetStreak (userId : string) (today : Z)
  | Enroll (languageId userId freshId : string) (now : Z)
  | Unenroll (languageId userId : string).

Definition perform (op : Operation) : World → Response * World :=
  match op with
  | CompleteLesson lessonId userId score timeSpent now =>
      completeLesson lessonId userId score timeSpent now
  | GetStreak userId today => getStreak userId today
  | Enroll languageId userId freshId now => enroll languageId userId freshId now
  | Unenroll languageId userId => unenroll languageId userId
  end.

(** Requests served one after the other. *)
Definition performAll (ops : list Operation) (w : World) : World :=
  fold_left (λ w op, (perform op w).2) ops w.

(** [level == floor(experience / 100) + 1] on every user row. *)
Definition levelInvariant (d : DB) : Prop :=
  ∀ id user, users d !! id = Some user →
    User.level user = User.experience user / 100 + 1.

(** The total possible points of a lesson, in the words of the specification:
    the sum of the points of the lesson's active exercises, read off the
    Exercise table row by row. *)
Fixpoint totalPossiblePoints (lessonId : string) (rows : list Exercise.t) : Z :=
  match rows with
  | [] => 0
  | ex :: rows =>
      if bool_decide (Exercise.lessonId ex = lessonId) && Exercise.isActive ex
      then Exercise.points ex + totalPossiblePoints lessonId rows
      else totalPossiblePoints lessonId rows
  end.

(** The row [progress.upsert] leaves for a completion. *)
Definition completedRow (d : DB) (lessonId userId enrollmentId : string)
    (finalScore timeSpent now : Z) : Progress.t :=
  from_option
    (λ old, Progress.mk (Progress.enrollmentId old) finalScore timeSpent true now)
    (Progress.mk enrollmentId finalScore timeSpent true now)
    (progress d !! (userId, lessonId)).

(** Number of [perfect_score] rows a user holds under a title. *)
Definition perfectScoreCount (userId title : string) (d : DB) : nat :=
  length (filter (λ a, Achievement.userId a = userId
                       ∧ Achievement.type a = "perfect_score"
                       ∧ Achievement.title a = title)
                 (achievements d)).

(** ** Sample stores *)

Module Sample.

Definition lesson : Lesson.t := Lesson.mk "Greetings" "es" true.

Definition db (user : User.t) (points : list Z) : DB :=
  mkDB {[ "u1" := user ]}
       {[ "es" := Language.mk true ]}
       {[ "l1" := lesson ]}
       ((λ p, Exercise.mk "l1" p true) <$> points)
       {[ ("u1", "es") := Enrollment.mk "e1" 1 true 0 ]}
       ∅
       [].

(** The same store with two more Exercise rows: an inactive exercise of the
    lesson and an exercise of another lesson. *)
Definition mixed (user : User.t) (points : list Z) : DB :=
  mkDB {[ "u1" := user ]}
       {[ "es" := Language.mk true ]}
       {[ "l1" := lesson ]}
       (Exercise.mk "l1" 40 false
          :: ((λ p, Exercise.mk "l1" p true) <$> points)
          ++ [Exercise.mk "l2" 30 true])
       {[ ("u1", "es") := Enrollment.mk "e1" 1 true 0 ]}
       ∅
       [].

End Sample.


(** ** Read routes *)

(** A route that ends in [res.json(payload)] with a payload of its own: the
    payload is the handler's value; early replies and the [catch] are as
    before. *)
Definition respond {A} (h : Handler A) (error : string) (w : World)
    : (A + Response) * World :=
  match h w with
  | (Value payload, w') => (inl payload, w')
  | (Reply r, w') => (inr r, w')
  | (Throw, w') => (inr (mkResponse 500 (ErrorBody error)), w')
  end.

Module Query.

(** [prisma.progress.findUnique({ where: { userId_lessonId } })] *)
Definition progress_findUnique (userId lessonId : string) (d : DB)
    : option Progress.t :=
  progress d !! (userId, lessonId).

(** [prisma.lesson.findUnique({ where: { id } })] *)
Definition lesson_findUnique (id : string) (d : DB) : option Lesson.t :=
  lessons d !! id.

(** [prisma.enrollment.findMany({ where: { userId, isActive: true } })] *)
Definition enrollment_findMany_active (userId : string) (d : DB)
    : list Enrollment.t :=
  snd <$> filter (λ row, row.1.1 = userId ∧ Enrollment.isActive row.2 = true)
                 (map_to_list (enrollments d)).

(** [include: { progress: ... }]: the Progress rows that point to the
    enrollment. *)
Definition progress_of (enrollment : Enrollment.t) (d : DB) : list Progress.t :=
  snd <$> filter (λ row, Progress.enrollmentId row.2 = Enrollment.id enrollment)
                 (map_to_list (progress d)).

End Query.

(** *** GET /lessons/:id/progress *)

(** The payload [{ ...lesson, userProgress, isUnlocked }], without the lesson's
    language and exercise lists. *)
Module LessonWithProgress.
Record t := mk {
  lesson : Lesson.t;
  userProgress : option Progress.t;
  isUnlocked : bool
}.
End LessonWithProgress.

Definition lessonProgress_body (lessonId userId : string)
    : Handler LessonWithProgress.t :=
  lesson ← prisma (query (Db.lesson_findUnique_active lessonId));
  match lesson with
  | None => reply 404 (ErrorBody "Lesson not found")
  | Some lesson =>
  (* Get user's enrollment for this language *)
  enrollment ← prisma (query
    (Db.enrollment_findFirst_active userId (Lesson.languageId lesson)));
  match enrollment with
  | None => reply 403 (ErrorBody "Not enrolled in this language")
  | Some _ =>
  (* Get user's progress for this lesson *)
  progress ← prisma (query (Query.progress_findUnique userId lessonId));
  mret (LessonWithProgress.mk lesson progress true)
  end
  end.

Definition lessonProgress (lessonId userId : string)
    : World → (LessonWithProgress.t + Response) * World :=
  respond (lessonProgress_body lessonId userId) "Failed to fetch lesson progress".

(** *** GET /progress/lesson/:lessonId *)

(** The payload is [{ progress }], or [{ progress: null, message }] when there
    is no row. *)
Definition progressOfLesson_body (lessonId userId : string)
    : Handler (option Progress.t) :=
  progress ← prisma (query (Query.progress_findUnique userId lessonId));
  match progress with
  | None => mret None
  | Some progress => mret (Some progress)
  end.

Definition progressOfLesson (lessonId userId : string)
    : World → (option Progress.t + Response) * World :=
  respond (progressOfLesson_body lessonId userId) "Failed to fetch lesson progress".

(** *** GET /lessons/:id/next *)

Section NextLesson.
(** The [order] column of the Lesson table, by lesson id. *)
Variable order : string → Z.

(** [orderBy: { order: 'asc' }] on rows paired with their ids. *)
Definition byOrder (a b : string * Lesson.t) : Prop := order a.1 ≤ order b.1.

#[global] Instance byOrder_dec : RelDecision byOrder.
Proof. intros a b. unfold byOrder. apply _. Defined.

(** [prisma.lesson.findFirst({ where: { languageId, order: { gt }, isActive:
    true }, orderBy: { order: 'asc' } })]. Which of several rows with the same
    least [order] the store returns is not fixed by the query; here it is the
    one the sort puts first. *)
Definition lesson_findFirst_after (languageId : string) (currentOrder : Z)
    (d : DB) : option (string * Lesson.t) :=
  head (merge_sort byOrder
          (filter (λ row, Lesson.languageId row.2 = languageId
                          ∧ order row.1 > currentOrder
                          ∧ Lesson.isActive row.2 = true)
                  (map_to_list (lessons d)))).

(** The payload is [{ nextLesson }], [null] when there is none. *)
Definition nextLesson_body (currentLessonId : string)
    : Handler (option (string * Lesson.t)) :=
  currentLesson ← prisma (query (Query.lesson_findUnique currentLessonId));
  match currentLesson with
  | None => reply 404 (ErrorBody "Current lesson not found")
  | Some currentLesson =>
  (* Find next lesson in sequence *)
  nextLesson ← prisma (query
    (lesson_findFirst_after (Lesson.languageId currentLesson)
                            (order currentLessonId)));
  mret nextLesson
  end.

Definition nextLesson (currentLessonId : string)
    : World → (option (string * Lesson.t) + Response) * World :=
  respond (nextLesson_body currentLessonId) "Failed to get next lesson".
End NextLesson.

(** *** GET /achievements/available *)

(** One entry of [availableAchievements], without its description, icon and
    [progressPercentage] (a double: [progress / target * 100]). *)
Module Suggestion.
Record t := mk {
  type : string;
  title : string;
  progress : Z;
  target : Z
}.
End Suggestion.

(** [targets.find(target => target > progress)] *)
Definition nextTarget (targets : list Z) (progress : Z) : option Z :=
  List.find (λ target, bool_decide (target > progress)) targets.

Definition streakTargets : list Z := [7; 14; 30; 60; 100].
Definition lessonTargets : list Z := [10; 25; 50; 100].
Definition perfectScoreTargets : list Z := [5; 10; 20; 50].

(** [enrollments.reduce((sum, enrollment) =>
      sum + enrollment.progress.filter(keep).length, 0)] *)
Definition countProgress (keep : Progress.t → bool)
    (enrollments : list (list Progress.t)) : Z :=
  fold_left (λ sum rows, sum + Z.of_nat (length (List.filter keep rows)))
            enrollments 0.

Definition availableAchievements_body (userId : string)
    : Handler (list Suggestion.t) :=
  (* Get user's current stats *)
  user ← prisma (query (Db.user_findUnique userId));
  match user with
  | None => reply 404 (ErrorBody "User not found")
  | Some user =>
  (* Get user's enrollments *)
  enrollments ← prisma (query (λ d,
    (λ enrollment, Query.progress_of enrollment d)
      <$> Query.enrollment_findMany_active userId d));
  (* Level-based achievements *)
  let nextLevel := User.level user + 1 in
  let levelPart :=
    if bool_decide (User.level user < 10) then
      [Suggestion.mk "level_up" ("Reach Level " +:+ pretty nextLevel)
         (User.level user) nextLevel]
    else [] in
  (* Streak achievements *)
  let streakPart :=
    match nextTarget streakTargets (User.streak user) with
    | Some nextStreakTarget =>
        [Suggestion.mk "streak" (pretty nextStreakTarget +:+ " Day Streak")
           (User.streak user) nextStreakTarget]
    | None => []
    end in
  (* Language completion achievements *)
  let totalLessons := countProgress (λ _, true) enrollments in
  let completedLessons := countProgress Progress.completed enrollments in
  let lessonPart :=
    if bool_decide (totalLessons > 0) then
      match nextTarget lessonTargets completedLessons with
      | Some nextLessonTarget =>
          [Suggestion.mk "lesson_complete"
             ("Complete " +:+ pretty nextLessonTarget +:+ " Lessons")
             completedLessons nextLessonTarget]
      | None => []
      end
    else [] in
  (* Perfect score achievements *)
  let perfectScores :=
    countProgress (λ p, Progress.completed p && bool_decide (Progress.score p >= 90))
                  enrollments in
  let perfectPart :=
    match nextTarget perfectScoreTargets perfectScores with
    | Some nextPerfectScoreTarget =>
        [Suggestion.mk "perfect_score"
           (pretty nextPerfectScoreTarget +:+ " Perfect Scores")
           perfectScores nextPerfectScoreTarget]
    | None => []
    end in
  mret (levelPart ++ streakPart ++ lessonPart ++ perfectPart)
  end.

Definition availableAchievements (userId : string)
    : World → (list Suggestion.t + Response) * World :=
  respond (availableAchievements_body userId)
          "Failed to fetch available achievements".

(** ** The authentication middleware *)

Module Session.
Record t := mk {
  token : string;
  userId : string;
  expiresAt : Z
}.
End Session.

(** The separator [' ']. *)
Definition space : Ascii.ascii := Ascii.ascii_of_nat 32.

(** [s.split(' ')]: the pieces between single spaces, empty pieces kept. *)
Fixpoint split_space (s : string) : list string :=
  match s with
  | EmptyString => [EmptyString]
  | String c rest =>
      if Ascii.eqb c space then EmptyString :: split_space rest
      else match split_space rest with
           | piece :: pieces => String c piece :: pieces
           | [] => [String c EmptyString]
           end
  end.

(** No character of [s] is a space. *)
Fixpoint spaceless (s : string) : bool :=
  match s with
  | EmptyString => true
  | String c rest => negb (Ascii.eqb c space) && spaceless rest
  end.

(** [authHeader && authHeader.split(' ')[1]], as the test [if (!token)] sees
    it: an absent header, an absent second piece and an empty one all count
    as no token. *)
Definition bearerToken (authHeader : option string) : option string :=
  match authHeader with
  | None => None
  | Some authHeader =>
      match split_space authHeader !! 1%nat with
      | Some EmptyString => None
      | Some token => Some token
      | None => None
      end
  end.

(** [throw error] with an error that is none of the library's. *)
Definition throw {A} : Handler A := λ w, (Throw, w).

Section Auth.
(** What stays outside the model: [jwt.verify], which returns the decoded
    user id or throws an error of the library, the two [instanceof] tests of
    the [catch], and the Session table. *)
Context {JwtError : Type}.
Variable verify : string → string → string + JwtError.
Variable isJsonWebTokenError isTokenExpiredError : JwtError → bool.
Variable sessions : list Session.t.

(** [prisma.session.findFirst({ where: { token, userId, expiresAt: { gt: new
    Date() } } })] *)
Definition session_findFirst (token userId : string) (now : Z)
    : option Session.t :=
  List.find (λ session,
               bool_decide (Session.token session = token)
               && bool_decide (Session.userId session = userId)
               && bool_decide (Session.expiresAt session > now))
            sessions.

(** [secret] is [process.env.JWT_SECRET]; the value is [req.user] at the call
    of [next()]: the user's id and the selected columns of the row. *)
Definition authenticateToken_body (authHeader secret : option string) (now : Z)
    : Handler (string * User.t) :=
  match bearerToken authHeader with
  | None => reply 401 (ErrorBody "Access token required")
  | Some token =>
  match secret with
  | None | Some EmptyString => throw
  | Some secret =>
  match verify token secret with
  | inr error =>
      if isJsonWebTokenError error then reply 403 (ErrorBody "Invalid token")
      else if isTokenExpiredError error then reply 401 (ErrorBody "Token expired")
      else throw
  | inl userId =>
  (* Check if session is still valid *)
  session ← prisma (query (λ _, session_findFirst token userId now));
  match session with
  | None => reply 401 (ErrorBody "Session expired")
  | Some _ =>
  (* Get user data *)
  user ← prisma (query (Db.user_findUnique userId));
  match user with
  | None => reply 401 (ErrorBody "User not found")
  | Some user => mret (userId, user)
  end
  end
  end
  end
  end.

Definition authenticateToken (authHeader secret : option string) (now : Z)
    : World → (string * User.t + Response) * World :=
  respond (authenticateToken_body authHeader secret now) "Authentication failed".

(** [optionalAuth] always ends in [next()]; the value is [req.user] then. *)
Definition optionalAuth_body (authHeader secret : option string)
    : Handler (option (string * User.t)) :=
  match bearerToken authHeader with
  | None => mret None
  | Some token =>
  match secret with
  | None | Some EmptyString => mret None
  | Some secret =>
  match verify token secret with
  | inr _ => throw
  | inl userId =>
  user ← prisma (query (Db.user_findUnique userId));
  match user with
  | Some user => mret (Some (userId, user))
  | None => mret None
  end
  end
  end
  end.

(** [catch (error) { next() }] *)
Definition optionalAuth (authHeader secret : option string) (w : World)
    : option (string * User.t) * World :=
  match optionalAuth_body authHeader secret w with
  | (Value user, w') => (user, w')
  | (Reply _, w') => (None, w')
  | (Throw, w') => (None, w')
  end.
End Auth.

(** A sample verifier and store for the middleware. *)
Module AuthSample.
(** A verifier that accepts the token "good" for user "u1" and reports every
    other token as expired; expired errors count as errors of the library. *)
Definition verify (token secret : string) : string + bool :=
  if decide (token = "good") then inl "u1" else inr true.
Definition isJsonWebTokenError (error : bool) : bool := true.
Definition isTokenExpiredError (error : bool) : bool := error.
Definition user : User.t := User.mk 0 1 0 None.
Definition d : DB := Sample.db user [10; 10].
End AuthSample.

(** ** Reasoning rules for handlers *)

(** [post m w Q]: running [m] in world [w] ends in a step and a world that
    satisfy [Q]. *)
Definition post {A} (m : Handler A) (w : World)
    (Q : Step A → World → Prop) : Prop :=
  Q (m w).1 (m w).2.

Section Rules.
Context {A B : Type}.

Lemma post_ret (a : A) w (Q : Step A → World → Prop) :
  Q (Value a) w → post (mret a) w Q.
Proof. done. Qed.

Lemma post_reply code b w (Q : Step A → World → Prop) :
  Q (Reply (mkResponse code b)) w → post (reply code b) w Q.
Proof. done. Qed.

Lemma post_bind (m : Handler A) (k : A → Handler B) w
    (Q : Step B → World → Prop) :
  post m w (λ s w', match s with
                    | Value a => post (k a) w' Q
                    | Reply r => Q (Reply r) w'
                    | Throw => Q Throw w'
                    end) →
  post (m ≫= k) w Q.
Proof.
  unfold post, mbind, handler_bind. by destruct (m w) as [[a|r|] w'].
Qed.

(** A persistence call either rejects, leaving the store as it is, or runs
    [op]; what is left of the fault plan is arbitrary from then on. *)
Lemma post_prisma (op : DB → option (A * DB)) d fs
    (Q : Step A → World → Prop) :
  (∀ fs', Q Throw (mkWorld d fs')) →
  (∀ a d' fs', op d = Some (a, d') → Q (Value a) (mkWorld d' fs')) →
  post (prisma op) (mkWorld d fs) Q.
Proof.
  intros Hthrow Hok. unfold post, prisma. cbn [db faults].
  destruct fs as [|[] fs]; cbn [tail]; [|apply Hthrow|];
    (destruct (op d) as [[a d']|] eqn:E; [by apply Hok|apply Hthrow]).
Qed.

Lemma post_query (f : DB → A) d fs (Q : Step A → World → Prop) :
  (∀ fs', Q Throw (mkWorld d fs')) →
  (∀ fs', Q (Value (f d)) (mkWorld d fs')) →
  post (prisma (query f)) (mkWorld d fs) Q.
Proof.
  intros Hthrow Hok. apply post_prisma; [done|].
  unfold query. intros ??? [= <- <-]. apply Hok.
Qed.

(** With an empty fault plan no call rejects by itself. *)
Lemma post_prisma_healthy (op : DB → option (A * DB)) d
    (Q : Step A → World → Prop) :
  (op d = None → Q Throw (mkWorld d [])) →
  (∀ a d', op d = Some (a, d') → Q (Value a) (mkWorld d' [])) →
  post (prisma op) (mkWorld d []) Q.
Proof.
  intros Hthrow Hok. unfold post, prisma. cbn [db faults tail].
  destruct (op d) as [[a d']|] eqn:E; [by apply Hok|by apply Hthrow].
Qed.

Lemma post_query_healthy (f : DB → A) d (Q : Step A → World → Prop) :
  Q (Value (f d)) (mkWorld d []) →
  post (prisma (query f)) (mkWorld d []) Q.
Proof. done. Qed.
End Rules.

Lemma post_try_catch (h : Handler Empty_set) error w
    (Q : Response → World → Prop) :
  post h w (λ s w', match s with
                    | Value a => True
                    | Reply r => Q r w'
                    | Throw => Q (mkResponse 500 (ErrorBody error)) w'
                    end) →
  Q (try_catch h error w).1 (try_catch h error w).2.
Proof.
  unfold post, try_catch. by destruct (h w) as [[[]|r|] w'].
Qed.

(** Running on a world with an empty fault plan. *)
Section Healthy.
Context {A B : Type}.

Lemma bind_value (m : Handler A) (k : A → Handler B) w a w' :
  m w = (Value a, w') → (m ≫= k) w = k a w'.
Proof. intros Hm. unfold mbind, handler_bind. by rewrite Hm. Qed.

Lemma query_healthy (f : DB → A) d :
  prisma (query f) (healthy d) = (Value (f d), healthy d).
Proof. reflexivity. Qed.

Lemma prisma_healthy (op : DB → option (A * DB)) d a d' :
  op d = Some (a, d') → prisma op (healthy d) = (Value a, healthy d').
Proof. intros Hop. unfold prisma. cbn. by rewrite Hop. Qed.
End Healthy.

(** Turn a goal about the two components of a handler's outcome into a [post]
    goal about its body. *)
Ltac enter_handler :=
  lazymatch goal with
  | |- context [try_catch ?h ?e ?w] =>
      pattern (try_catch h e w).1, (try_catch h e w).2;
      apply post_try_catch
  end.

Ltac store_simpl :=
  cbn beta iota zeta delta
    [db faults users languages lessons exercises enrollments progress
     achievements Db.set_users Db.set_progress Db.set_enrollments
     Db.set_achievements fst snd status body] in *.

(** Invert [op d = Some (a, d')] for the writing calls. *)
Ltac invert_op H :=
  unfold Db.progress_upsert, Db.achievement_create, Db.user_update,
    Db.enrollment_update, Db.enrollment_create in H;
  store_simpl;
  repeat match type of H with
         | context [match ?x with _ => _ end] =>
             let E := fresh "E" in destruct x eqn:E
         end;
  simplify_eq.

Ltac post_step :=
  lazymatch goal with
  | |- post (_ ≫= _) _ _ => apply post_bind
  | |- post (mret _) _ _ => apply post_ret
  | |- post (reply _ _) _ _ => apply post_reply
  | |- post (prisma (query _)) _ _ =>
      apply post_query; intros ?;
      unfold Db.user_findUnique, Db.enrollment_findUnique
  | |- post (prisma _) _ _ =>
      apply post_prisma;
      [ intros ?
      | let H := fresh "Hop" in intros ??? H; invert_op H ]
  | |- post (match ?x with _ => _ end) _ _ =>
      first [ is_var x; destruct x
            | case_bool_decide
            | let E := fresh "E" in destruct x eqn:E ]
  end.

Ltac run_handler := repeat (post_step; cbv beta iota; store_simpl).

(** The same on a world with an empty fault plan. *)
Ltac healthy_step :=
  lazymatch goal with
  | |- post (prisma (query _)) (mkWorld _ []) _ =>
      apply post_query_healthy;
      unfold Db.user_findUnique, Db.enrollment_findUnique
  | |- post (prisma _) (mkWorld _ []) _ =>
      let H := fresh "Hop" in
      apply post_prisma_healthy; [intros H|intros ?? H]; invert_op H
  | _ => post_step
  end.

Ltac run_healthy := repeat (healthy_step; cbv beta iota; store_simpl).

Lemma findFirst_after_create userId type title row (l : list Achievement.t) :
  Achievement.type row ≠ type →
  head (filter (λ a, Achievement.userId a = userId
                     ∧ Achievement.type a = type
                     ∧ Achievement.title a = title) (l ++ [row]))
  = head (filter (λ a, Achievement.userId a = userId
                       ∧ Achievement.type a = type
                       ∧ Achievement.title a = title) l).
Proof.
  intros Hne.
  rewrite filter_app, filter_cons_False, filter_nil, app_nil_r; [done|].
  intros (_ & ? & _). done.
Qed.

Lemma levelUp_not_perfect userId newLevel :
  Achievement.type (levelUpAchievement userId newLevel) ≠ "perfect_score".
Proof. discriminate. Qed.

Lemma completeLesson_ok lessonId userId score timeSpent now w :
  let out := completeLesson lessonId userId score timeSpent now w in
  status out.1 = 200 →
  ∃ lesson enrollment,
    Db.lesson_findUnique_active lessonId (db w) = Some lesson ∧
    Db.enrollment_findFirst_active userId (Lesson.languageId lesson) (db w)
      = Some enrollment ∧
    let total := totalPoints (Db.exercise_findMany_active lessonId (db w)) in
    let finalScore := score `min` total in
    let experienceGained := finalScore / 10 in
    let row := completedRow (db w) lessonId userId (Enrollment.id enrollment)
                 finalScore timeSpent now in
    let user := users (db w) !! userId in
    let newLevel u := (User.experience u + experienceGained) / 100 + 1 in
    out.1 = mkResponse 200
      (CompletedBody "Lesson completed successfully" row experienceGained
         (from_option newLevel 1 user)) ∧
    db out.2 = mkDB
      (from_option
         (λ u, <[userId := User.mk (User.experience u + experienceGained)
                             (newLevel u) (User.streak u) (User.lastLogin u)]>)
         id user (users (db w)))
      (languages (db w)) (lessons (db w)) (exercises (db w))
      (enrollments (db w))
      (<[(userId, lessonId) := row]> (progress (db w)))
      (achievements (db w)
       ++ from_option
            (λ u, if bool_decide (newLevel u > User.level u)
                  then [levelUpAchievement userId (newLevel u)] else [])
            [] user
       ++ (if bool_decide (finalScore = total) then
             match Db.achievement_findFirst userId "perfect_score"
                     (perfectScoreTitle lesson) (db w) with
             | None => [perfectScoreAchievement userId lesson]
             | Some _ => []
             end
           else [])).
Proof.
  intros out; subst out.
  unfold completeLesson, completeLesson_body.
  destruct w as [d fs].
  enter_handler.
  unfold Db.achievement_findFirst.
  repeat first
    [ rewrite findFirst_after_create by apply levelUp_not_perfect
    | post_step; cbv beta iota; store_simpl ].
  all: try done.
  all: intros _; eexists _, _; split_and!; try done.
  all: cbv zeta; unfold completedRow, Db.achievement_findFirst, Db.set_achievements,
         Db.set_users, Db.set_progress; store_simpl.
  all: cbn [from_option]; repeat case_bool_decide; try done.
  all: repeat match goal with H : head _ = _ |- _ => rewrite H; clear H end.
  all: by rewrite ?app_nil_r, <- ?app_assoc.
Qed.

Lemma totalPoints_sum (exs : list Exercise.t) :
  totalPoints exs = foldr Z.add 0 (Exercise.points <$> exs).
Proof.
  unfold totalPoints.
  enough (∀ acc, fold_left (λ sum ex, sum + Exercise.points ex) exs acc
                 = acc + foldr Z.add 0 (Exercise.points <$> exs)) as ->
    by lia.
  induction exs as [|ex exs IH]; intros acc; cbn; [lia|].
  rewrite IH. lia.
Qed.

Lemma completedRow_score d lessonId userId enrollmentId finalScore timeSpent now :
  Progress.score
    (completedRow d lessonId userId enrollmentId finalScore timeSpent now)
  = finalScore.
Proof. unfold completedRow. by destruct (progress d !! _). Qed.

Lemma perfect_part_not_level_up (b : bool) (existing : option Achievement.t)
    userId lesson :
  filter (λ a, Achievement.type a = "level_up")
    (if b then
       match existing with
       | Some _ => []
       | None => [perfectScoreAchievement userId lesson]
       end
     else []) = [].
Proof. by destruct b, existing. Qed.

Lemma level_up_part_not_perfect (user : option User.t) (f : User.t → Z)
    (b : User.t → bool) userId :
  filter (λ a, Achievement.type a = "perfect_score")
    (from_option (λ u, if b u then [levelUpAchievement userId (f u)] else [])
       [] user) = [].
Proof. destruct user as [u|]; [|done]. cbn. by destruct (b u). Qed.

(** ** Lesson completion: score, experience, level *)

(** The handler's query and [reduce] compute the total of the
    specification. *)
Lemma totalPoints_active lessonId d :
  totalPoints (Db.exercise_findMany_active lessonId d)
  = totalPossiblePoints lessonId (exercises d).
Proof.
  rewrite totalPoints_sum. unfold Db.exercise_findMany_active.
  induction (exercises d) as [|ex rows IH]; [done|].
  cbn [totalPossiblePoints]. rewrite filter_cons.
  destruct (Exercise.isActive ex) eqn:Hactive.
  - case_bool_decide as Hlesson; cbn [andb].
    + rewrite decide_True by done. cbn. by rewrite IH.
    + rewrite decide_False by (by intros [? _]). done.
  - rewrite andb_false_r. rewrite decide_False by (by intros [_ ?]). done.
Qed.

(** C1: for every lesson completion, the persisted final score is
    [min rawScore totalPossiblePoints], where [totalPossiblePoints] is the sum
    of the points of the lesson's active exercises; in particular it is
    [totalPossiblePoints] whenever [rawScore > totalPossiblePoints]. Exercises
    of other lessons and inactive exercises do not count. *)
Theorem completion_persists_clamped_score
    lessonId userId score timeSpent now w :
  let out := completeLesson lessonId userId score timeSpent now w in
  let total := totalPossiblePoints lessonId (exercises (db w)) in
  status out.1 = 200 →
  ∃ row message experienceGained newLevel,
    progress (db out.2) !! (userId, lessonId) = Some row ∧
    body out.1 = CompletedBody message row experienceGained newLevel ∧
    Progress.score row = score `min` total ∧
    (score > total → Progress.score row = total).
Proof.
  intros out total Hok.
  destruct (completeLesson_ok _ _ _ _ _ _ Hok)
    as (lesson & enrollment & _ & _ & Hresp & Hdb).
  cbv zeta in Hresp, Hdb. fold out in Hresp, Hdb.
  rewrite Hresp, Hdb. cbn [progress body].
  eexists _, _, _, _. split; [apply lookup_insert_eq|]. split; [done|].
  rewrite completedRow_score, totalPoints_active. fold total. lia.
Qed.

(** The scenario of the specification, active exercises totalling 20 points
    and a reported score of 25, in a store that also holds an inactive
    exercise of the lesson (40 points) and an exercise of another lesson (30
    points). *)
Lemma completion_persists_clamped_score_witness :
  let w := healthy (Sample.mixed (User.mk 0 1 0 None) [10; 10]) in
  let out := completeLesson "l1" "u1" 25 60 1000 w in
  status out.1 = 200 ∧
  totalPossiblePoints "l1" (exercises (db w)) = 20 ∧
  ∃ row, progress (db out.2) !! ("u1", "l1") = Some row ∧ Progress.score row = 20.
Proof.
  intros w out. split; [reflexivity|]. split; [reflexivity|].
  destruct (completion_persists_clamped_score "l1" "u1" 25 60 1000 w)
    as (row & _ & _ & _ & Hrow & _ & Hscore & _); [reflexivity|].
  exists row. split; [exact Hrow|exact Hscore].
Defined.

(** C2: a lesson completion with final score [finalScore] adds
    [floor(finalScore / 10)] to the user's experience, sets the level to
    [floor(newExperience / 100) + 1], and creates a [level_up] achievement,
    titled with the new level, exactly when the new level exceeds the prior
    one. *)
Theorem completion_accrues_experience
    lessonId userId score timeSpent now w user :
  let out := completeLesson lessonId userId score timeSpent now w in
  let totalPossiblePoints :=
    totalPoints (Db.exercise_findMany_active lessonId (db w)) in
  let finalScore := score `min` totalPossiblePoints in
  let experienceGained := finalScore / 10 in
  let newExperience := User.experience user + experienceGained in
  let newLevel := newExperience / 100 + 1 in
  status out.1 = 200 →
  users (db w) !! userId = Some user →
  users (db out.2) !! userId
    = Some (User.mk newExperience newLevel (User.streak user) (User.lastLogin user)) ∧
  (∃ message row,
     body out.1 = CompletedBody message row experienceGained newLevel) ∧
  (∃ created,
     achievements (db out.2) = achievements (db w) ++ created ∧
     filter (λ a, Achievement.type a = "level_up") created
       = if bool_decide (newLevel > User.level user)
         then [levelUpAchievement userId newLevel] else []) ∧
  Achievement.title (levelUpAchievement userId newLevel)
    = "Level " +:+ pretty newLevel +:+ "!".
Proof.
  intros out total finalScore gained newExperience newLevel Hok Huser.
  destruct (completeLesson_ok _ _ _ _ _ _ Hok)
    as (lesson & enrollment & _ & _ & Hresp & Hdb).
  cbv zeta in Hresp, Hdb. fold out in Hresp, Hdb.
  rewrite Hresp, Hdb, Huser. cbn [users achievements body from_option].
  fold total finalScore gained newExperience newLevel.
  split; [apply lookup_insert_eq|]. split; [by eexists _, _|].
  split; [|reflexivity].
  eexists; split; [done|].
  rewrite filter_app.
  clear Hresp Hdb. rewrite perfect_part_not_level_up.
  rewrite app_nil_r. case_bool_decide; reflexivity.
Qed.

(** The scenario of the specification: experience 95 at level 1, a lesson
    worth 50 points completed with score 50. *)
Lemma completion_accrues_experience_witness :
  let user := User.mk 95 1 0 None in
  let w := healthy (Sample.db user [10; 15; 25]) in
  let out := completeLesson "l1" "u1" 50 60 1000 w in
  status out.1 = 200 ∧
  users (db w) !! "u1" = Some user ∧
  users (db out.2) !! "u1" = Some (User.mk 100 2 0 None) ∧
  (∃ message row, body out.1 = CompletedBody message row 5 2) ∧
  (∃ created,
     achievements (db out.2) = achievements (db w) ++ created ∧
     filter (λ a, Achievement.type a = "level_up") created
       = [levelUpAchievement "u1" 2]) ∧
  Achievement.title (levelUpAchievement "u1" 2) = "Level 2!".
Proof.
  intros user w out.
  split; [reflexivity|]. split; [reflexivity|].
  exact (completion_accrues_experience "l1" "u1" 50 60 1000 w user
           eq_refl eq_refl).
Defined.

(** C9: for every lesson completion within the contract of the
    specification, that is with a final score that is not negative and a user
    row that satisfies the invariant [level = floor(experience / 100) + 1],
    the experience does not decrease and the newly computed level is at least
    the user's level before the operation. *)
Theorem completion_level_monotone
    lessonId userId score timeSpent now w user :
  let out := completeLesson lessonId userId score timeSpent now w in
  let finalScore :=
    score `min` totalPossiblePoints lessonId (exercises (db w)) in
  status out.1 = 200 →
  users (db w) !! userId = Some user →
  User.level user = User.experience user / 100 + 1 →
  0 ≤ finalScore →
  ∃ user' message row experienceGained newLevel,
    users (db out.2) !! userId = Some user' ∧
    body out.1 = CompletedBody message row experienceGained newLevel ∧
    newLevel = User.level user' ∧
    User.experience user ≤ User.experience user' ∧
    User.level user ≤ newLevel.
Proof.
  intros out finalScore Hok Huser Hinv Hfinal.
  destruct (completeLesson_ok _ _ _ _ _ _ Hok)
    as (lesson & enrollment & _ & _ & Hresp & Hdb).
  cbv zeta in Hresp, Hdb. rewrite totalPoints_active in Hresp, Hdb.
  fold out finalScore in Hresp, Hdb.
  rewrite Hresp, Hdb, Huser. cbn [users body from_option].
  eexists _, _, _, _, _.
  split; [apply lookup_insert_eq|]. split; [done|].
  cbn [User.level User.experience]. split; [done|].
  assert (0 ≤ finalScore / 10) by (apply Z.div_pos; lia).
  split; [lia|]. rewrite Hinv.
  apply Z.add_le_mono_r, Z.div_le_mono; lia.
Qed.

Lemma completion_level_monotone_witness :
  let user := User.mk 95 1 0 None in
  let w := healthy (Sample.db user [10; 15; 25]) in
  let out := completeLesson "l1" "u1" 50 60 1000 w in
  ∃ user' message row experienceGained newLevel,
    users (db out.2) !! "u1" = Some user' ∧
    body out.1 = CompletedBody message row experienceGained newLevel ∧
    newLevel = User.level user' ∧
    User.experience user ≤ User.experience user' ∧
    User.level user ≤ newLevel.
Proof.
  intros user w out.
  apply (completion_level_monotone "l1" "u1" 50 60 1000 w user);
    [reflexivity|reflexivity|reflexivity|].
  vm_compute. discriminate.
Defined.

(** Outside that contract the handler validates nothing and clamps from above
    only. Experience 150 at level 2, a lesson worth 20 points reported with
    score -1000: the final score is -1000, the experience goes to 50 and the
    level to 1. *)
Lemma negative_score_lowers_level :
  let user := User.mk 150 2 0 None in
  let w := healthy (Sample.db user [10; 10]) in
  let out := completeLesson "l1" "u1" (-1000) 60 1000 w in
  users (db w) !! "u1" = Some user ∧
  User.level user = User.experience user / 100 + 1 ∧
  out.1 = mkResponse 200
            (CompletedBody "Lesson completed successfully"
               (Progress.mk "e1" (-1000) 60 true 1000) (-100) 1) ∧
  users (db out.2) !! "u1" = Some (User.mk 50 1 0 None) ∧
  ¬ (User.level user ≤ 1).
Proof.
  cbv zeta. repeat (split; [reflexivity|]). cbn. lia.
Qed.

(** ** The user invariant *)

Lemma completeLesson_users lessonId userId score timeSpent now w id user' :
  users (db (completeLesson lessonId userId score timeSpent now w).2) !! id
    = Some user' →
  users (db w) !! id = Some user'
  ∨ User.level user' = User.experience user' / 100 + 1.
Proof.
  unfold completeLesson, completeLesson_body.
  destruct w as [d fs]. enter_handler. run_handler.
  all: try done.
  all: try by left.
  all: destruct (decide (userId = id)) as [->|];
    [rewrite lookup_insert_eq|rewrite lookup_insert_ne by done];
    intros; simplify_eq; auto.
Qed.

Lemma getStreak_users userId today w id :
  let w' := (getStreak userId today w).2 in
  (User.experience <$> users (db w') !! id)
    = (User.experience <$> users (db w) !! id) ∧
  (User.level <$> users (db w') !! id) = (User.level <$> users (db w) !! id) ∧
  (User.lastLogin <$> users (db w') !! id)
    = (User.lastLogin <$> users (db w) !! id).
Proof.
  unfold getStreak, getStreak_body.
  destruct w as [d fs]. enter_handler. run_handler.
  all: try done.
  all: destruct (decide (userId = id)) as [->|];
    [rewrite lookup_insert_eq|by rewrite lookup_insert_ne by done].
  all: by repeat match goal with H : users _ !! _ = Some _ |- _ =>
                   rewrite H; clear H end.
Qed.

Lemma enroll_users languageId userId freshId now w :
  users (db (enroll languageId userId freshId now w).2) = users (db w).
Proof.
  unfold enroll, enroll_body.
  destruct w as [d fs]. enter_handler. run_handler; done.
Qed.

Lemma unenroll_users languageId userId w :
  users (db (unenroll languageId userId w).2) = users (db w).
Proof.
  unfold unenroll, unenroll_body.
  destruct w as [d fs]. enter_handler. run_handler; done.
Qed.

(** C3: the user invariant [level = floor(experience / 100) + 1] holds after
    every mutation by the operations in scope: a lesson completion leaves a
    user row either as it was or with its level re-derived from its new
    experience, and the streak check, enrollment and unenrollment leave
    experience and level of every user as they were. *)
Theorem level_invariant_maintained (op : Operation) (w : World) :
  let w' := (perform op w).2 in
  (levelInvariant (db w) → levelInvariant (db w')) ∧
  match op with
  | CompleteLesson _ _ _ _ _ =>
      ∀ id user', users (db w') !! id = Some user' →
        users (db w) !! id = Some user'
        ∨ User.level user' = User.experience user' / 100 + 1
  | _ =>
      ∀ id,
        (User.experience <$> users (db w') !! id)
          = (User.experience <$> users (db w) !! id) ∧
        (User.level <$> users (db w') !! id)
          = (User.level <$> users (db w) !! id)
  end.
Proof.
  destruct op as [lessonId userId score timeSpent now|userId today
                 |languageId userId freshId now|languageId userId];
    intros w'; subst w'; cbn [perform].
  - split; [|intros id user'; apply completeLesson_users].
    intros Hinv id user' Hid.
    destruct (completeLesson_users _ _ _ _ _ _ _ _ Hid); [|done].
    by apply (Hinv id).
  - assert (∀ id,
      (User.experience <$> users (db (getStreak userId today w).2) !! id)
        = (User.experience <$> users (db w) !! id) ∧
      (User.level <$> users (db (getStreak userId today w).2) !! id)
        = (User.level <$> users (db w) !! id)) as Hsame.
    { intros id. destruct (getStreak_users userId today w id) as (? & ? & _).
      done. }
    split; [|done]. intros Hinv id user' Hid.
    destruct (Hsame id) as [Hexp Hlevel]. rewrite Hid in Hexp, Hlevel.
    destruct (users (db w) !! id) as [user|] eqn:Hu; [|done].
    cbn in Hexp, Hlevel. injection Hexp as ->. injection Hlevel as ->.
    by apply (Hinv id).
  - unfold levelInvariant. by rewrite enroll_users.
  - unfold levelInvariant. by rewrite unenroll_users.
Qed.

Lemma level_invariant_maintained_witness :
  let w := healthy (Sample.db (User.mk 95 1 0 None) [10; 15; 25]) in
  levelInvariant (db w) ∧
  levelInvariant (db (perform (CompleteLesson "l1" "u1" 50 60 1000) w).2).
Proof.
  intros w.
  assert (levelInvariant (db w)) as Hinv.
  { intros id user Hid. cbn in Hid.
    apply lookup_singleton_Some in Hid as [<- <-]. reflexivity. }
  split; [exact Hinv|].
  exact (proj1 (level_invariant_maintained
                  (CompleteLesson "l1" "u1" 50 60 1000) w) Hinv).
Defined.

(** ** Perfect-score achievements *)

Section Dedup.
Variable userId0 title0 : string.

Let held (a : Achievement.t) : Prop :=
  Achievement.userId a = userId0
  ∧ Achievement.type a = "perfect_score"
  ∧ Achievement.title a = title0.

Lemma held_after_level_up l userId newLevel :
  filter held (l ++ [levelUpAchievement userId newLevel]) = filter held l.
Proof.
  rewrite filter_app, filter_cons_False, filter_nil, app_nil_r; [done|].
  intros (_ & ? & _). done.
Qed.

Lemma held_after_perfect l userId lesson :
  head (filter (λ a, Achievement.userId a = userId
                     ∧ Achievement.type a = "perfect_score"
                     ∧ Achievement.title a = perfectScoreTitle lesson) l)
    = None →
  length (filter held (l ++ [perfectScoreAchievement userId lesson]))
    = length (filter held l)
  ∨ length (filter held l) = 0%nat
    ∧ length (filter held (l ++ [perfectScoreAchievement userId lesson]))
      = 1%nat.
Proof.
  intros Hnone%head_None. rewrite filter_app.
  destruct (decide (held (perfectScoreAchievement userId lesson)))
    as [(Hu & _ & Ht)|Hno].
  - right. cbn in Hu, Ht. subst userId0 title0.
    unfold held. rewrite Hnone. split; [done|].
    rewrite filter_cons_True by done. done.
  - left. by rewrite filter_cons_False, filter_nil, app_nil_r.
Qed.

Lemma completeLesson_perfectScoreCount
    lessonId userId score timeSpent now w :
  let w' := (completeLesson lessonId userId score timeSpent now w).2 in
  perfectScoreCount userId0 title0 (db w')
    = perfectScoreCount userId0 title0 (db w)
  ∨ perfectScoreCount userId0 title0 (db w) = 0%nat
    ∧ perfectScoreCount userId0 title0 (db w') = 1%nat.
Proof.
  unfold completeLesson, completeLesson_body.
  destruct w as [d fs]. enter_handler.
  unfold Db.achievement_findFirst, perfectScoreCount. fold held.
  run_handler.
  all: try done.
  all: try by left.
  all: try (left; apply (f_equal length), held_after_level_up).
  all: match goal with
       | E : head _ = None |- _ =>
           destruct (held_after_perfect _ _ _ E) as [Hsame|[Hzero Hone]]
       end.
  all: rewrite ?held_after_level_up in *; auto.
Qed.
End Dedup.

Lemma getStreak_achievements userId today w :
  achievements (db (getStreak userId today w).2) = achievements (db w).
Proof.
  unfold getStreak, getStreak_body.
  destruct w as [d fs]. enter_handler. run_handler; done.
Qed.

Lemma enroll_achievements languageId userId freshId now w :
  achievements (db (enroll languageId userId freshId now w).2)
    = achievements (db w).
Proof.
  unfold enroll, enroll_body.
  destruct w as [d fs]. enter_handler. run_handler; done.
Qed.

Lemma unenroll_achievements languageId userId w :
  achievements (db (unenroll languageId userId w).2) = achievements (db w).
Proof.
  unfold unenroll, unenroll_body.
  destruct w as [d fs]. enter_handler. run_handler; done.
Qed.

Lemma perform_perfectScoreCount op w userId title :
  let w' := (perform op w).2 in
  perfectScoreCount userId title (db w') = perfectScoreCount userId title (db w)
  ∨ perfectScoreCount userId title (db w) = 0%nat
    ∧ perfectScoreCount userId title (db w') = 1%nat.
Proof.
  destruct op; cbn [perform].
  - apply completeLesson_perfectScoreCount.
  - left. unfold perfectScoreCount. by rewrite getStreak_achievements.
  - left. unfold perfectScoreCount. by rewrite enroll_achievements.
  - left. unfold perfectScoreCount. by rewrite unenroll_achievements.
Qed.

Lemma performAll_perfectScoreCount ops w userId title :
  (perfectScoreCount userId title (db (performAll ops w))
   ≤ Nat.max 1 (perfectScoreCount userId title (db w)))%nat.
Proof.
  unfold performAll. revert w.
  induction ops as [|op ops IH]; intros w; cbn [fold_left]; [lia|].
  etrans; [apply IH|].
  destruct (perform_perfectScoreCount op w userId title) as [->|[-> ->]]; lia.
Qed.

Lemma achievement_findFirst_None userId type title d :
  Db.achievement_findFirst userId type title d = None
  ↔ ¬ ∃ a, a ∈ achievements d ∧ Achievement.userId a = userId
           ∧ Achievement.type a = type ∧ Achievement.title a = title.
Proof.
  unfold Db.achievement_findFirst. rewrite head_None. split.
  - intros Hnil (a & Hin & Hheld).
    assert (a ∈ filter (λ a, Achievement.userId a = userId
                             ∧ Achievement.type a = type
                             ∧ Achievement.title a = title) (achievements d))
      as Hfound by (by apply list_elem_of_filter).
    rewrite Hnil in Hfound. by apply elem_of_nil in Hfound.
  - intros Hnone. apply elem_of_nil_inv.
    intros a [Hheld Hin]%list_elem_of_filter. apply Hnone. by exists a.
Qed.

(** C4, as the handler has it: a completion creates a [perfect_score]
    achievement titled "Perfect Score in <lessonTitle>" exactly when the final
    score equals the lesson's total possible points and no achievement of type
    [perfect_score] with that exact title exists for that user; the total need
    not be positive. Consequently a user never comes to hold more than one
    such row under one title, whatever requests are repeated, unless the store
    held more to begin with. *)
Theorem perfect_score_unlock lessonId userId score timeSpent now w lesson :
  let out := completeLesson lessonId userId score timeSpent now w in
  let total := totalPossiblePoints lessonId (exercises (db w)) in
  let finalScore := score `min` total in
  let title := "Perfect Score in " +:+ Lesson.title lesson in
  let exists_already :=
    ∃ a, a ∈ achievements (db w) ∧ Achievement.userId a = userId
         ∧ Achievement.type a = "perfect_score" ∧ Achievement.title a = title in
  (status out.1 = 200 →
   lessons (db w) !! lessonId = Some lesson →
   ∃ created,
     achievements (db out.2) = achievements (db w) ++ created ∧
     (finalScore = total ∧ ¬ exists_already →
      filter (λ a, Achievement.type a = "perfect_score") created
        = [Achievement.mk userId "perfect_score" title
             ("You got a perfect score in " +:+ Lesson.title lesson +:+ "!")
             "⭐"]) ∧
     (¬ (finalScore = total ∧ ¬ exists_already) →
      filter (λ a, Achievement.type a = "perfect_score") created = [])) ∧
  (∀ ops holder held,
     perfectScoreCount holder held (db (performAll ops w))
     ≤ Nat.max 1 (perfectScoreCount holder held (db w)))%nat.
Proof.
  intros out total finalScore title exists_already.
  split; [|intros; apply performAll_perfectScoreCount].
  intros Hok Hlesson.
  destruct (completeLesson_ok _ _ _ _ _ _ Hok)
    as (lesson' & enrollment & Hfound & _ & _ & Hdb).
  unfold Db.lesson_findUnique_active in Hfound. rewrite Hlesson in Hfound.
  destruct (Lesson.isActive lesson); [|done].
  injection Hfound as <-.
  cbv zeta in Hdb. rewrite totalPoints_active in Hdb.
  fold out total finalScore in Hdb.
  unfold perfectScoreTitle in Hdb. fold title in Hdb.
  pose proof (achievement_findFirst_None userId "perfect_score" title (db w))
    as Hnone. fold exists_already in Hnone.
  rewrite Hdb. cbn [achievements]. clear Hdb.
  eexists; split; [done|].
  rewrite filter_app, level_up_part_not_perfect, app_nil_l.
  split.
  - intros [Hfinal Hfree]. apply Hnone in Hfree. rewrite Hfree.
    by rewrite bool_decide_true.
  - intros Hnot. case_bool_decide as Hfinal; [|done].
    destruct (Db.achievement_findFirst _ _ _ _) eqn:Hexisting; [done|].
    destruct Hnot. split; [done|]. by apply Hnone.
Qed.

(** The scenario of the specification: exercises totalling 20 points, a
    reported score of 25, no achievement before. *)
Lemma perfect_score_unlock_witness :
  let w := healthy (Sample.mixed (User.mk 0 1 0 None) [10; 10]) in
  let out := completeLesson "l1" "u1" 25 60 1000 w in
  status out.1 = 200 ∧
  lessons (db w) !! "l1" = Some Sample.lesson ∧
  ∃ created,
    achievements (db out.2) = achievements (db w) ++ created ∧
    filter (λ a, Achievement.type a = "perfect_score") created
      = [Achievement.mk "u1" "perfect_score" "Perfect Score in Greetings"
           "You got a perfect score in Greetings!" "⭐"].
Proof.
  intros w out. split; [reflexivity|]. split; [reflexivity|].
  destruct (proj1 (perfect_score_unlock "l1" "u1" 25 60 1000 w Sample.lesson)
              eq_refl eq_refl) as (created & Hcreated & Hyes & _).
  exists created. split; [exact Hcreated|].
  apply Hyes. split; [reflexivity|].
  intros (a & Hin & _). inversion Hin.
Defined.

(** A lesson without active exercises, completed with score 0: the
    achievement is created although the total is not positive. *)
Lemma perfect_score_on_empty_lesson :
  let w := healthy (Sample.db (User.mk 0 1 0 None) []) in
  let out := completeLesson "l1" "u1" 0 60 1000 w in
  let total := totalPossiblePoints "l1" (exercises (db w)) in
  let finalScore := 0 `min` total in
  let exists_already :=
    ∃ a, a ∈ achievements (db w) ∧ Achievement.userId a = "u1"
         ∧ Achievement.type a = "perfect_score"
         ∧ Achievement.title a = "Perfect Score in Greetings" in
  status out.1 = 200 ∧
  achievements (db out.2)
    = achievements (db w)
      ++ [Achievement.mk "u1" "perfect_score" "Perfect Score in Greetings"
            "You got a perfect score in Greetings!" "⭐"] ∧
  ¬ (finalScore = total ∧ total > 0 ∧ ¬ exists_already).
Proof.
  cbv zeta. split; [reflexivity|]. split; [reflexivity|].
  intros (_ & Hpos & _). vm_compute in Hpos. discriminate.
Qed.

(** ** Failed completions *)


Lemma completeLesson_rejected lessonId userId score timeSpent now w :
  let out := completeLesson lessonId userId score timeSpent now w in
  status out.1 = 404 ∨ status out.1 = 403 → db out.2 = db w.
Proof.
  intros out; subst out.
  unfold completeLesson, completeLesson_body.
  destruct w as [d fs]. enter_handler. run_handler.
  all: try done.
  all: by intros [|].
Qed.

(** C5, as the handler has it: a completion request that fails with
    LessonNotFound (404) or NotEnrolled (403) changes nothing in the store;
    with a working store the first is the answer for an absent or inactive
    lesson and the second for a user without an active enrollment in the
    lesson's language. *)
Theorem completion_rejected_without_mutation
    lessonId userId score timeSpent now :
  (∀ w,
     let out := completeLesson lessonId userId score timeSpent now w in
     status out.1 = 404 ∨ status out.1 = 403 → db out.2 = db w) ∧
  (∀ d,
     Db.lesson_findUnique_active lessonId d = None →
     completeLesson lessonId userId score timeSpent now (healthy d)
       = (mkResponse 404 (ErrorBody "Lesson not found"), healthy d)) ∧
  (∀ d lesson,
     Db.lesson_findUnique_active lessonId d = Some lesson →
     Db.enrollment_findFirst_active userId (Lesson.languageId lesson) d = None →
     completeLesson lessonId userId score timeSpent now (healthy d)
       = (mkResponse 403 (ErrorBody "Not enrolled in this language"),
          healthy d)).
Proof.
  split; [intros w; apply completeLesson_rejected|]. split.
  - intros d Hlesson.
    unfold completeLesson, try_catch, completeLesson_body.
    rewrite (bind_value _ _ _ _ _ (query_healthy _ _)), Hlesson. done.
  - intros d lesson Hlesson Henrollment.
    unfold completeLesson, try_catch, completeLesson_body.
    rewrite (bind_value _ _ _ _ _ (query_healthy _ _)), Hlesson.
    rewrite (bind_value _ _ _ _ _ (query_healthy _ _)), Henrollment. done.
Qed.

(** A user without any enrollment. *)
Lemma completion_rejected_without_mutation_witness :
  let d := Sample.db (User.mk 0 1 0 None) [10; 10] in
  Db.lesson_findUnique_active "l1" d = Some Sample.lesson ∧
  Db.enrollment_findFirst_active "u2" "es" d = None ∧
  completeLesson "l1" "u2" 20 60 1000 (healthy d)
    = (mkResponse 403 (ErrorBody "Not enrolled in this language"), healthy d).
Proof.
  intros d. split; [reflexivity|]. split; [reflexivity|].
  exact (proj2 (proj2 (completion_rejected_without_mutation
                         "l1" "u2" 20 60 1000))
           d Sample.lesson eq_refl eq_refl).
Defined.

(** The fifth persistence call ([user.findUnique]) rejects: the request fails
    with status 500, and the Progress row written by the fourth call stays. *)
Lemma completion_failure_keeps_progress_row :
  let w := mkWorld (Sample.db (User.mk 0 1 0 None) [10; 10])
                   [false; false; false; false; true] in
  let out := completeLesson "l1" "u1" 20 60 1000 w in
  status out.1 = 500 ∧
  progress (db w) !! ("u1", "l1") = None ∧
  progress (db out.2) !! ("u1", "l1")
    = Some (Progress.mk "e1" 20 60 true 1000) ∧
  db out.2 ≠ db w.
Proof.
  cbv zeta. split; [reflexivity|]. split; [reflexivity|].
  split; [reflexivity|].
  intros Heq. apply (f_equal (λ d, progress d !! ("u1", "l1"))) in Heq.
  vm_compute in Heq. discriminate.
Qed.

(** ** The streak check *)

Lemma getStreak_ok userId today w :
  let out := getStreak userId today w in
  status out.1 = 200 →
  ∃ user,
    users (db w) !! userId = Some user ∧
    ∃ newStreak,
      out.1 = mkResponse 200 (StreakBody newStreak (User.lastLogin user)) ∧
      match User.lastLogin user with
      | Some lastLogin =>
          let days := daysSinceLastLogin today lastLogin in
          (days = 1 →
           newStreak = User.streak user + 1 ∧
           users (db out.2)
             = <[userId := setStreak newStreak user]> (users (db w))) ∧
          (days > 1 →
           newStreak = 0 ∧
           users (db out.2)
             = <[userId := setStreak newStreak user]> (users (db w))) ∧
          (days < 1 →
           newStreak = User.streak user ∧ users (db out.2) = users (db w))
      | None =>
          newStreak = User.streak user + 1 ∧
          users (db out.2)
            = <[userId := setStreak newStreak user]> (users (db w))
      end.
Proof.
  intros out; subst out.
  unfold getStreak, getStreak_body.
  destruct w as [d fs]. enter_handler. run_handler.
  all: try done.
  all: intros _; eexists; split; [done|].
  all: match goal with E : User.lastLogin _ = _ |- _ => rewrite E end.
  all: eexists; split; [reflexivity|]; cbv zeta.
  all: repeat split; intros; first [lia|done].
Qed.

Lemma getStreak_healthy userId today d user :
  users d !! userId = Some user →
  status (getStreak userId today (healthy d)).1 = 200.
Proof.
  intros Huser. unfold getStreak, getStreak_body, healthy.
  enter_handler. run_healthy.
  all: done.
Qed.

Lemma getStreak_healthy_faults userId today d :
  faults (getStreak userId today (healthy d)).2 = [].
Proof.
  unfold getStreak, getStreak_body, healthy.
  enter_handler. run_healthy.
  all: done.
Qed.

(** C7: for a user with a recorded [lastLogin], the streak check increments
    the streak by exactly 1 when [floor((now - lastLogin) / 86400000)], the
    gap in whole days, is 1, and resets it to 0 when that gap exceeds 1,
    whatever the prior streak; the new streak is what the check answers and
    what it leaves in the user row, whose other columns stay. With a working
    store the check succeeds. *)
Theorem streak_gap_rule userId now w user lastLogin :
  let out := getStreak userId now w in
  let gap := (now - lastLogin) / 86400000 in
  users (db w) !! userId = Some user →
  User.lastLogin user = Some lastLogin →
  (faults w = [] → status out.1 = 200) ∧
  (status out.1 = 200 →
   (gap = 1 →
    body out.1 = StreakBody (User.streak user + 1) (Some lastLogin) ∧
    users (db out.2) !! userId
      = Some (User.mk (User.experience user) (User.level user)
                (User.streak user + 1) (Some lastLogin))) ∧
   (gap > 1 →
    body out.1 = StreakBody 0 (Some lastLogin) ∧
    users (db out.2) !! userId
      = Some (User.mk (User.experience user) (User.level user)
                0 (Some lastLogin)))).
Proof.
  intros out gap Huser Hlast. split.
  - destruct w as [d fs]. cbn. intros ->.
    by apply (getStreak_healthy userId now d user).
  - intros Hok.
    destruct (getStreak_ok userId now w Hok)
      as (user' & Huser' & newStreak & Hresp & Hcases).
    rewrite Huser in Huser'. injection Huser' as <-.
    rewrite Hlast in Hresp, Hcases. cbv zeta in Hcases.
    change (daysSinceLastLogin now lastLogin) with gap in Hcases.
    fold out in Hresp, Hcases.
    destruct Hcases as (Hone & Hmore & _). rewrite Hresp. cbn [body].
    split; intros Hgap.
    + destruct (Hone Hgap) as [-> ->]. rewrite lookup_insert_eq.
      unfold setStreak. by rewrite Hlast.
    + destruct (Hmore Hgap) as [-> ->]. rewrite lookup_insert_eq.
      unfold setStreak. by rewrite Hlast.
Qed.

(** The scenario of the specification, streak 3 and a last login two days ago,
    and the same user checked one day and a little more after the last
    login. *)
Lemma streak_gap_rule_witness :
  let lastLogin := 1700000000000 in
  let user := User.mk 120 2 3 (Some lastLogin) in
  let w := healthy (Sample.db user [10; 10]) in
  let reset := getStreak "u1" (lastLogin + 2 * 86400000) w in
  let increment := getStreak "u1" (lastLogin + 86400000 + 5000) w in
  (reset.1 = mkResponse 200 (StreakBody 0 (Some lastLogin)) ∧
   users (db reset.2) !! "u1" = Some (User.mk 120 2 0 (Some lastLogin))) ∧
  (increment.1 = mkResponse 200 (StreakBody 4 (Some lastLogin)) ∧
   users (db increment.2) !! "u1" = Some (User.mk 120 2 4 (Some lastLogin))).
Proof.
  intros lastLogin user w reset increment.
  destruct (streak_gap_rule "u1" (lastLogin + 2 * 86400000) w user lastLogin
              eq_refl eq_refl) as [Hhealthy Hrule].
  destruct (streak_gap_rule "u1" (lastLogin + 86400000 + 5000) w user lastLogin
              eq_refl eq_refl) as [Hhealthy' Hrule'].
  split.
  - split; [reflexivity|].
    exact (proj2 (proj2 (Hrule (Hhealthy eq_refl)) eq_refl)).
  - split; [reflexivity|].
    exact (proj2 (proj1 (Hrule' (Hhealthy' eq_refl)) eq_refl)).
Defined.

(** C8, as the handler has it: the streak check never writes [lastLogin]; it
    answers with the streak it leaves in the store and with the stored
    [lastLogin], unchanged. *)
Theorem streak_check_keeps_lastLogin userId today w :
  let out := getStreak userId today w in
  (∀ id,
     (User.lastLogin <$> users (db out.2) !! id)
       = (User.lastLogin <$> users (db w) !! id)) ∧
  (status out.1 = 200 →
   ∃ user user',
     users (db w) !! userId = Some user ∧
     users (db out.2) !! userId = Some user' ∧
     User.lastLogin user' = User.lastLogin user ∧
     body out.1 = StreakBody (User.streak user') (User.lastLogin user)).
Proof.
  intros out. split.
  - intros id. by destruct (getStreak_users userId today w id) as (_ & _ & ?).
  - intros Hok.
    destruct (getStreak_ok userId today w Hok)
      as (user & Huser & newStreak & Hresp & Hcases).
    fold out in Hresp, Hcases. rewrite Hresp. cbn [body].
    exists user.
    destruct (User.lastLogin user) as [lastLogin|] eqn:Hlast.
    + cbv zeta in Hcases. destruct Hcases as (Hone & Hmore & Hless).
      destruct (Z.lt_total (daysSinceLastLogin today lastLogin) 1)
        as [Hd|[Hd|Hd]].
      * destruct (Hless Hd) as [-> ->]. exists user. by rewrite Hlast.
      * destruct (Hone Hd) as [-> ->]. eexists.
        rewrite lookup_insert_eq. by rewrite <- Hlast.
      * destruct (Hmore ltac:(lia)) as [-> ->]. eexists.
        rewrite lookup_insert_eq. by rewrite <- Hlast.
    + destruct Hcases as [-> ->]. eexists.
      rewrite lookup_insert_eq. by rewrite <- Hlast.
Qed.

Lemma streak_check_keeps_lastLogin_witness :
  let user := User.mk 0 1 3 (Some 1000) in
  let w := healthy (Sample.db user [10; 10]) in
  let out := getStreak "u1" (1000 + 2 * msPerDay) w in
  status out.1 = 200 ∧
  ∃ user user',
    users (db w) !! "u1" = Some user ∧
    users (db out.2) !! "u1" = Some user' ∧
    User.lastLogin user' = User.lastLogin user ∧
    body out.1 = StreakBody (User.streak user') (User.lastLogin user).
Proof.
  intros user w out. split; [reflexivity|].
  exact (proj2 (streak_check_keeps_lastLogin "u1" (1000 + 2 * msPerDay) w)
           eq_refl).
Defined.

(** Streak 3, last login two days ago: the streak is reset, the stored and the
    returned [lastLogin] are the old one, not [today]. *)
Lemma streak_reset_leaves_lastLogin :
  let today := 1000 + 2 * msPerDay in
  let w := healthy (Sample.db (User.mk 0 1 3 (Some 1000)) [10; 10]) in
  let out := getStreak "u1" today w in
  (User.streak <$> users (db w) !! "u1") = Some 3 ∧
  (User.streak <$> users (db out.2) !! "u1") = Some 0 ∧
  (User.lastLogin <$> users (db out.2) !! "u1") ≠ Some (Some today) ∧
  out.1 = mkResponse 200 (StreakBody 0 (Some 1000)).
Proof.
  cbv zeta. split; [reflexivity|]. split; [reflexivity|].
  split; [|reflexivity]. vm_compute. discriminate.
Qed.

(** C6, as the handler has it: for a user with a recorded [lastLogin], two
    streak checks on the same day (at the same time, or at two times less than
    24 hours apart), neither of them one whole day after [lastLogin]
    ([floor((now - lastLogin) / 86400000) = 1]), leave the user rows after the
    second check as they are after the first, and give the same answer. With
    a working store both checks succeed. *)
Theorem streak_check_repeat userId now1 now2 w user lastLogin :
  let out1 := getStreak userId now1 w in
  let out2 := getStreak userId now2 out1.2 in
  users (db w) !! userId = Some user →
  User.lastLogin user = Some lastLogin →
  Z.abs (now2 - now1) < 86400000 →
  (now1 - lastLogin) / 86400000 ≠ 1 →
  (now2 - lastLogin) / 86400000 ≠ 1 →
  (faults w = [] → status out1.1 = 200 ∧ status out2.1 = 200) ∧
  (status out1.1 = 200 → status out2.1 = 200 →
   out2.1 = out1.1 ∧ users (db out2.2) = users (db out1.2)).
Proof.
  intros out1 out2 Huser Hlast Hday Hne1 Hne2. split.
  - destruct w as [d fs]. cbn. intros ->. fold (healthy d) in out1, out2.
    assert (status out1.1 = 200) as Hok1
      by by apply (getStreak_healthy userId now1 d user).
    split; [done|].
    destruct (getStreak_ok userId now1 (healthy d) Hok1)
      as (user1 & Huser1 & streak1 & _ & Hcases1).
    fold out1 in Hcases1.
    pose proof (getStreak_healthy_faults userId now1 d) as Hfaults.
    fold out1 in Hfaults.
    assert (∃ user', users (db out1.2) !! userId = Some user') as [user' Huser'].
    { destruct (getStreak_users userId now1 (healthy d) userId) as (Hkept & _).
      fold out1 in Hkept. cbn [db healthy] in Hkept, Huser.
      rewrite Huser in Hkept.
      destruct (users (db out1.2) !! userId) as [user'|]; [by eexists|done]. }
    subst out2. destruct out1.2 as [d1 fs1]. cbn in Hfaults, Huser'. subst fs1.
    by apply (getStreak_healthy userId now2 d1 user').
  - intros Hok1 Hok2.
    destruct (getStreak_ok userId now1 w Hok1)
      as (user1 & Huser1 & streak1 & Hresp1 & Hcases1).
    destruct (getStreak_ok userId now2 out1.2 Hok2)
      as (user2 & Huser2 & streak2 & Hresp2 & Hcases2).
    fold out1 in Hresp1, Hcases1, Hresp2, Hcases2, Huser2.
    fold out2 in Hresp2, Hcases2.
    rewrite Huser in Huser1. injection Huser1 as <-.
    rewrite Hlast in Hresp1, Hcases1. cbv zeta in Hcases1.
    unfold daysSinceLastLogin, msPerDay in Hcases1, Hcases2.
    change (1000 * 60 * 60 * 24) with 86400000 in Hcases1, Hcases2.
    destruct Hcases1 as (_ & Hmore1 & Hless1).
    rewrite Hresp1, Hresp2.
    assert ((now1 - lastLogin) / 86400000 < 1 ∧ (now2 - lastLogin) / 86400000 < 1
            ∨ (now1 - lastLogin) / 86400000 > 1
              ∧ (now2 - lastLogin) / 86400000 > 1) as [[Hd1 Hd2]|[Hd1 Hd2]].
    { revert Hday Hne1 Hne2. clear. intros Hday Hne1 Hne2.
      Z.div_mod_to_equations. lia. }
    + destruct (Hless1 Hd1) as [-> Husers1]. rewrite Husers1 in Huser2 |- *.
      rewrite Huser in Huser2. injection Huser2 as <-.
      rewrite Hlast in Hcases2 |- *. cbv zeta in Hcases2.
      destruct Hcases2 as (_ & _ & Hless2).
      destruct (Hless2 Hd2) as [-> ->]. by rewrite Husers1.
    + destruct (Hmore1 Hd1) as [-> Husers1].
      rewrite Husers1 in Huser2 |- *.
      rewrite lookup_insert_eq in Huser2. injection Huser2 as <-.
      cbn [setStreak User.lastLogin] in Hcases2 |- *.
      rewrite Hlast in Hcases2 |- *. cbv zeta in Hcases2.
      destruct Hcases2 as (_ & Hmore2 & _).
      destruct (Hmore2 Hd2) as [-> ->].
      rewrite Husers1. split; [done|].
      by rewrite insert_insert_eq.
Qed.

(** Streak 3 and a last login on the evening three days before: two checks on
    one day, the first two whole days and the second three whole days after
    the last login, both answer 0; two checks a few hours after the last login
    both answer 3. *)
Lemma streak_check_repeat_witness :
  let lastLogin := 1700000000000 in
  let user := User.mk 0 1 3 (Some lastLogin) in
  let w := healthy (Sample.db user [10; 10]) in
  let late1 := getStreak "u1" (lastLogin + 3 * 86400000 - 3600000) w in
  let late2 := getStreak "u1" (lastLogin + 3 * 86400000 + 3600000) late1.2 in
  let early1 := getStreak "u1" (lastLogin + 3600000) w in
  let early2 := getStreak "u1" (lastLogin + 7200000) early1.2 in
  (late1.1 = mkResponse 200 (StreakBody 0 (Some lastLogin)) ∧
   late2.1 = late1.1 ∧ users (db late2.2) = users (db late1.2)) ∧
  (early1.1 = mkResponse 200 (StreakBody 3 (Some lastLogin)) ∧
   early2.1 = early1.1 ∧ users (db early2.2) = users (db early1.2)).
Proof.
  intros lastLogin user w late1 late2 early1 early2.
  split.
  - split; [reflexivity|].
    apply (streak_check_repeat "u1" (lastLogin + 3 * 86400000 - 3600000)
             (lastLogin + 3 * 86400000 + 3600000) w user lastLogin);
      try reflexivity.
    + vm_compute. discriminate.
    + vm_compute. discriminate.
  - split; [reflexivity|].
    apply (streak_check_repeat "u1" (lastLogin + 3600000)
             (lastLogin + 7200000) w user lastLogin);
      try reflexivity.
    + vm_compute. discriminate.
    + vm_compute. discriminate.
Defined.

(** Last login exactly one day ago: the first check takes the streak from 3
    to 4, the second one, at the same time, from 4 to 5. No last login
    recorded: the first check takes the streak from 0 to 1, the second one, at
    the same time, from 1 to 2. *)
Lemma streak_check_twice_increments_twice :
  let now := 1000 + 86400000 in
  let w := healthy (Sample.db (User.mk 0 1 3 (Some 1000)) [10; 10]) in
  let out1 := getStreak "u1" now w in
  let out2 := getStreak "u1" now out1.2 in
  let w' := healthy (Sample.db (User.mk 0 1 0 None) [10; 10]) in
  let out1' := getStreak "u1" now w' in
  let out2' := getStreak "u1" now out1'.2 in
  (out1.1 = mkResponse 200 (StreakBody 4 (Some 1000)) ∧
   out2.1 = mkResponse 200 (StreakBody 5 (Some 1000)) ∧
   (User.streak <$> users (db out1.2) !! "u1") = Some 4 ∧
   (User.streak <$> users (db out2.2) !! "u1") = Some 5 ∧
   (User.streak <$> users (db out2.2) !! "u1")
     ≠ (User.streak <$> users (db out1.2) !! "u1")) ∧
  (out1'.1 = mkResponse 200 (StreakBody 1 None) ∧
   out2'.1 = mkResponse 200 (StreakBody 2 None) ∧
   (User.streak <$> users (db out1'.2) !! "u1") = Some 1 ∧
   (User.streak <$> users (db out2'.2) !! "u1") = Some 2 ∧
   (User.streak <$> users (db out2'.2) !! "u1")
     ≠ (User.streak <$> users (db out1'.2) !! "u1")).
Proof.
  cbv zeta. split.
  - repeat (split; [reflexivity|]). vm_compute. discriminate.
  - repeat (split; [reflexivity|]). vm_compute. discriminate.
Qed.

(** ** Unenrollment *)

Lemma unenroll_found languageId userId d enrollment :
  enrollments d !! (userId, languageId) = Some enrollment →
  unenroll languageId userId (healthy d)
    = (mkResponse 200 (MessageBody "Successfully unenrolled from language"),
       healthy (Db.set_enrollments
                  <[(userId, languageId) :=
                      Enrollment.mk (Enrollment.id enrollment)
                        (Enrollment.level enrollment) false
                        (Enrollment.startedAt enrollment)]> d)).
Proof.
  intros Hrow. unfold unenroll, try_catch, unenroll_body.
  rewrite (bind_value _ _ _ _ _ (query_healthy _ _)).
  unfold Db.enrollment_findUnique. rewrite Hrow.
  erewrite bind_value; [done|].
  apply prisma_healthy. unfold Db.enrollment_update. by rewrite Hrow.
Qed.

Lemma unenroll_missing languageId userId d :
  enrollments d !! (userId, languageId) = None →
  unenroll languageId userId (healthy d)
    = (mkResponse 404 (ErrorBody "Enrollment not found"), healthy d).
Proof.
  intros Hrow. unfold unenroll, try_catch, unenroll_body.
  rewrite (bind_value _ _ _ _ _ (query_healthy _ _)).
  unfold Db.enrollment_findUnique. by rewrite Hrow.
Qed.

Lemma unenroll_not_found languageId userId w :
  let out := unenroll languageId userId w in
  status out.1 = 404 →
  enrollments (db w) !! (userId, languageId) = None ∧ db out.2 = db w.
Proof.
  intros out; subst out. unfold unenroll, unenroll_body.
  destruct w as [d fs]. enter_handler. run_handler; done.
Qed.

(** C10: unenrolling does not look at [isActive]. With a working store, if
    any Enrollment row exists for the (user, language) pair the request
    succeeds and leaves the row inactive, and a second request gives the same
    answer and the same store; if no row exists it fails with NotFound (404).
    Whatever the store does, a 404 answer means that no row exists. *)
Theorem unenroll_idempotent languageId userId d :
  let out1 := unenroll languageId userId (healthy d) in
  let out2 := unenroll languageId userId out1.2 in
  match enrollments d !! (userId, languageId) with
  | Some enrollment =>
      out1.1 = mkResponse 200
                 (MessageBody "Successfully unenrolled from language") ∧
      enrollments (db out1.2) !! (userId, languageId)
        = Some (Enrollment.mk (Enrollment.id enrollment)
                  (Enrollment.level enrollment) false
                  (Enrollment.startedAt enrollment)) ∧
      out2 = out1
  | None =>
      out1 = (mkResponse 404 (ErrorBody "Enrollment not found"), healthy d)
  end ∧
  (∀ w, status (unenroll languageId userId w).1 = 404 →
        enrollments (db w) !! (userId, languageId) = None).
Proof.
  intros out1 out2. split; [|intros w Hw; by apply unenroll_not_found].
  destruct (enrollments d !! (userId, languageId)) as [enrollment|] eqn:Hrow;
    [|by apply unenroll_missing].
  subst out2 out1. rewrite (unenroll_found _ _ _ _ Hrow). cbn [fst snd].
  split; [done|]. split; [apply lookup_insert_eq|].
  erewrite unenroll_found by apply lookup_insert_eq.
  cbn [Enrollment.id Enrollment.level Enrollment.startedAt].
  unfold Db.set_enrollments. cbn [users languages lessons exercises enrollments
    progress achievements]. by rewrite insert_insert_eq.
Qed.

(** An enrollment that is already inactive. *)
Lemma unenroll_idempotent_witness :
  let d := mkDB ∅ ∅ ∅ [] {[ ("u1", "es") := Enrollment.mk "e1" 1 false 0 ]} ∅ [] in
  let out1 := unenroll "es" "u1" (healthy d) in
  let out2 := unenroll "es" "u1" out1.2 in
  status out1.1 = 200 ∧ out2 = out1 ∧
  status (unenroll "fr" "u1" (healthy d)).1 = 404 ∧
  enrollments d !! ("u1", "fr") = None.
Proof.
  intros d out1 out2.
  pose proof (unenroll_idempotent "es" "u1" d) as [Hes _].
  pose proof (unenroll_idempotent "fr" "u1" d) as [_ Hfr].
  split; [reflexivity|]. split; [exact (proj2 (proj2 Hes))|].
  split; [reflexivity|]. exact (Hfr (healthy d) eq_refl).
Defined.

(** ** Enrollment *)

Lemma enroll_healthy_created languageId userId freshId now d language :
  Db.language_findUnique_active languageId d = Some language →
  enrollments d !! (userId, languageId) = None →
  enroll languageId userId freshId now (healthy d)
    = (mkResponse 201
         (EnrolledBody "Successfully enrolled in language"
            (Enrollment.mk freshId 1 true now)),
       healthy (Db.set_enrollments
                  <[(userId, languageId) := Enrollment.mk freshId 1 true now]> d)).
Proof.
  intros Hlanguage Hrow. unfold enroll, try_catch, enroll_body.
  rewrite (bind_value _ _ _ _ _ (query_healthy _ _)), Hlanguage.
  rewrite (bind_value _ _ _ _ _ (query_healthy _ _)).
  unfold Db.enrollment_findUnique. rewrite Hrow.
  erewrite bind_value; [done|].
  apply prisma_healthy. unfold Db.enrollment_create. by rewrite Hrow.
Qed.

Lemma enroll_healthy_reactivated languageId userId freshId now d language row :
  Db.language_findUnique_active languageId d = Some language →
  enrollments d !! (userId, languageId) = Some row →
  Enrollment.isActive row = false →
  enroll languageId userId freshId now (healthy d)
    = (mkResponse 200 (MessageBody "Enrollment reactivated"),
       healthy (Db.set_enrollments
                  <[(userId, languageId) :=
                      Enrollment.mk (Enrollment.id row) (Enrollment.level row)
                        true now]> d)).
Proof.
  intros Hlanguage Hrow Hinactive. unfold enroll, try_catch, enroll_body.
  rewrite (bind_value _ _ _ _ _ (query_healthy _ _)), Hlanguage.
  rewrite (bind_value _ _ _ _ _ (query_healthy _ _)).
  unfold Db.enrollment_findUnique. rewrite Hrow, Hinactive.
  erewrite bind_value; [done|].
  apply prisma_healthy. unfold Db.enrollment_update. by rewrite Hrow.
Qed.

Lemma enroll_healthy_already languageId userId freshId now d language row :
  Db.language_findUnique_active languageId d = Some language →
  enrollments d !! (userId, languageId) = Some row →
  Enrollment.isActive row = true →
  enroll languageId userId freshId now (healthy d)
    = (mkResponse 400 (ErrorBody "Already enrolled in this language"),
       healthy d).
Proof.
  intros Hlanguage Hrow Hactive. unfold enroll, try_catch, enroll_body.
  rewrite (bind_value _ _ _ _ _ (query_healthy _ _)), Hlanguage.
  rewrite (bind_value _ _ _ _ _ (query_healthy _ _)).
  unfold Db.enrollment_findUnique. by rewrite Hrow, Hactive.
Qed.

Lemma enroll_healthy_cases languageId userId freshId now d language :
  Db.language_findUnique_active languageId d = Some language →
  ∃ code body row,
    enroll languageId userId freshId now (healthy d)
      = (mkResponse code body,
         healthy (Db.set_enrollments <[(userId, languageId) := row]> d)) ∧
    Enrollment.isActive row = true ∧
    match enrollments d !! (userId, languageId) with
    | None => code = 201 ∧ row = Enrollment.mk freshId 1 true now
    | Some old =>
        if Enrollment.isActive old then code = 400 ∧ row = old
        else code = 200
             ∧ row = Enrollment.mk (Enrollment.id old) (Enrollment.level old)
                       true now
    end.
Proof.
  intros Hlanguage.
  destruct (enrollments d !! (userId, languageId)) as [old|] eqn:Hold.
  - destruct (Enrollment.isActive old) eqn:Hactive.
    + exists 400, (ErrorBody "Already enrolled in this language"), old.
      rewrite (enroll_healthy_already _ _ _ _ _ _ _ Hlanguage Hold Hactive).
      split; [|done]. do 2 f_equal. destruct d. unfold Db.set_enrollments.
      cbn in *. by rewrite insert_id.
    + eexists 200, _, _.
      rewrite (enroll_healthy_reactivated _ _ _ _ _ _ _ Hlanguage Hold Hactive).
      done.
  - eexists 201, _, _.
    rewrite (enroll_healthy_created _ _ _ _ _ _ Hlanguage Hold). done.
Qed.

(** X1: with a working store, enrolling in an active language always ends
    with an active enrollment of the user in that language: created with level
    1 (201, no row before), reactivated with its id and level kept and a new
    [startedAt] (200, an inactive row before), or already there (400, an
    active row before, store untouched). No other enrollment and no other
    table is changed. *)
Theorem enroll_leaves_active_enrollment languageId userId freshId now d language :
  let out := enroll languageId userId freshId now (healthy d) in
  Db.language_findUnique_active languageId d = Some language →
  (status out.1 = 201 ∨ status out.1 = 200 ∨ status out.1 = 400) ∧
  status out.1
    = match enrollments d !! (userId, languageId) with
      | None => 201
      | Some old => if Enrollment.isActive old then 400 else 200
      end ∧
  (∃ row, enrollments (db out.2) !! (userId, languageId) = Some row
          ∧ Enrollment.isActive row = true) ∧
  (status out.1 = 400 →
   (∃ old, enrollments d !! (userId, languageId) = Some old
           ∧ Enrollment.isActive old = true) ∧
   out.2 = healthy d) ∧
  (status out.1 = 201 →
   enrollments d !! (userId, languageId) = None ∧
   enrollments (db out.2) !! (userId, languageId)
     = Some (Enrollment.mk freshId 1 true now)) ∧
  (status out.1 = 200 →
   ∃ old, enrollments d !! (userId, languageId) = Some old ∧
          Enrollment.isActive old = false ∧
          enrollments (db out.2) !! (userId, languageId)
            = Some (Enrollment.mk (Enrollment.id old) (Enrollment.level old)
                      true now)) ∧
  (∀ key, key ≠ (userId, languageId) →
          enrollments (db out.2) !! key = enrollments d !! key) ∧
  users (db out.2) = users d ∧ progress (db out.2) = progress d ∧
  achievements (db out.2) = achievements d ∧ lessons (db out.2) = lessons d ∧
  languages (db out.2) = languages d ∧ exercises (db out.2) = exercises d.
Proof.
  intros out Hlanguage. subst out.
  destruct (enrollments d !! (userId, languageId)) as [row|] eqn:Hrow.
  - destruct (Enrollment.isActive row) eqn:Hactive.
    + rewrite (enroll_healthy_already _ _ _ _ _ _ _ Hlanguage Hrow Hactive).
      cbn. split_and!; eauto; done.
    + rewrite (enroll_healthy_reactivated _ _ _ _ _ _ _ Hlanguage Hrow Hactive).
      cbn. split_and!; eauto; try done.
      * eexists. by rewrite lookup_insert_eq.
      * intros _. exists row. by rewrite lookup_insert_eq.
      * intros key Hkey. by rewrite lookup_insert_ne.
  - rewrite (enroll_healthy_created _ _ _ _ _ _ Hlanguage Hrow).
    cbn. split_and!; eauto; try done.
    + eexists. by rewrite lookup_insert_eq.
    + intros _. by rewrite lookup_insert_eq.
    + intros key Hkey. by rewrite lookup_insert_ne.
Qed.

(** A first enrollment, and the enrollment of a user whose row is inactive. *)
Lemma enroll_leaves_active_enrollment_witness :
  let d := Sample.db (User.mk 0 1 0 None) [10; 10] in
  let out := enroll "es" "u2" "e2" 5000 (healthy d) in
  let d' := Db.set_enrollments <[("u1", "es") := Enrollment.mk "e1" 4 false 0]> d in
  let out' := enroll "es" "u1" "e3" 6000 (healthy d') in
  Db.language_findUnique_active "es" d = Some (Language.mk true) ∧
  (status out.1 = 201 ∧
   enrollments (db out.2) !! ("u2", "es") = Some (Enrollment.mk "e2" 1 true 5000)) ∧
  (status out'.1 = 200 ∧
   ∃ old, enrollments d' !! ("u1", "es") = Some old ∧
          Enrollment.isActive old = false ∧
          enrollments (db out'.2) !! ("u1", "es")
            = Some (Enrollment.mk (Enrollment.id old) (Enrollment.level old)
                      true 6000)) ∧
  enrollments (db out'.2) !! ("u1", "es") = Some (Enrollment.mk "e1" 4 true 6000).
Proof.
  intros d out d' out'.
  pose proof (enroll_leaves_active_enrollment "es" "u2" "e2" 5000 d
                (Language.mk true) eq_refl) as (_ & _ & _ & _ & Hnew & _).
  pose proof (enroll_leaves_active_enrollment "es" "u1" "e3" 6000 d'
                (Language.mk true) eq_refl) as (_ & _ & _ & _ & _ & Hold & _).
  split; [reflexivity|].
  split; [split; [reflexivity|exact (proj2 (Hnew eq_refl))]|].
  split; [split; [reflexivity|exact (Hold eq_refl)]|].
  reflexivity.
Defined.

(** X2: unenrolling and enrolling again reactivates the row that was there:
    it keeps its id and its per-language level, gets a new [startedAt], and the
    fresh id offered for a new row is not used. *)
Theorem reenroll_reactivates_same_row
    languageId userId freshId now d language row :
  let out1 := unenroll languageId userId (healthy d) in
  let out2 := enroll languageId userId freshId now out1.2 in
  Db.language_findUnique_active languageId d = Some language →
  enrollments d !! (userId, languageId) = Some row →
  out2.1 = mkResponse 200 (MessageBody "Enrollment reactivated") ∧
  enrollments (db out2.2)
    = <[(userId, languageId) :=
          Enrollment.mk (Enrollment.id row) (Enrollment.level row) true now]>
        (enrollments d) ∧
  progress (db out2.2) = progress d.
Proof.
  intros out1 out2 Hlanguage Hrow. subst out2 out1.
  rewrite (unenroll_found _ _ _ _ Hrow). cbn [snd].
  erewrite enroll_healthy_reactivated;
    [|exact Hlanguage|apply lookup_insert_eq|done].
  cbn. split; [done|]. split; [|done]. by rewrite insert_insert_eq.
Qed.

Lemma reenroll_reactivates_same_row_witness :
  let d := Sample.db (User.mk 0 1 0 None) [10; 10] in
  let out1 := unenroll "es" "u1" (healthy d) in
  let out2 := enroll "es" "u1" "e9" 7000 out1.2 in
  enrollments (db out1.2) !! ("u1", "es") = Some (Enrollment.mk "e1" 1 false 0) ∧
  enrollments (db out2.2) !! ("u1", "es") = Some (Enrollment.mk "e1" 1 true 7000).
Proof.
  intros d out1 out2. split; [reflexivity|].
  destruct (reenroll_reactivates_same_row "es" "u1" "e9" 7000 d
              (Language.mk true) (Enrollment.mk "e1" 1 true 0)
              eq_refl eq_refl) as (_ & Hrows & _).
  fold d out1 out2 in Hrows. rewrite Hrows. reflexivity.
Defined.

Lemma enroll_any_world languageId userId freshId now w :
  let out := enroll languageId userId freshId now w in
  (status out.1 = 404 →
   Db.language_findUnique_active languageId (db w) = None ∧ db out.2 = db w) ∧
  (status out.1 = 400 →
   (∃ row, enrollments (db w) !! (userId, languageId) = Some row
           ∧ Enrollment.isActive row = true) ∧ db out.2 = db w) ∧
  (status out.1 = 200 →
   ∃ row, enrollments (db w) !! (userId, languageId) = Some row
          ∧ Enrollment.isActive row = false) ∧
  (status out.1 = 201 → enrollments (db w) !! (userId, languageId) = None) ∧
  (status out.1 = 500 →
   db out.2 = db w ∧ out.1 = mkResponse 500 (ErrorBody "Enrollment failed")).
Proof.
  intros out; subst out. unfold enroll, enroll_body.
  destruct w as [d fs]. enter_handler. run_handler.
  all: split_and!; intros; try done.
  all: eauto.
Qed.

(** X3: whatever the store does, an enrollment request that is refused leaves
    the store as it was: 404 means the language is absent or inactive, 400
    means an active enrollment exists, and 500 means that a persistence call
    rejected (this handler makes a single write, last). A 201 means that no
    row existed, a 200 that an inactive one did. *)
Theorem enroll_refusals languageId userId freshId now w :
  let out := enroll languageId userId freshId now w in
  (status out.1 = 404 →
   Db.language_findUnique_active languageId (db w) = None ∧ db out.2 = db w) ∧
  (status out.1 = 400 →
   (∃ row, enrollments (db w) !! (userId, languageId) = Some row
           ∧ Enrollment.isActive row = true) ∧ db out.2 = db w) ∧
  (status out.1 = 500 → db out.2 = db w) ∧
  (status out.1 = 201 → enrollments (db w) !! (userId, languageId) = None) ∧
  (status out.1 = 200 →
   ∃ row, enrollments (db w) !! (userId, languageId) = Some row
          ∧ Enrollment.isActive row = false).
Proof.
  intros out.
  destruct (enroll_any_world languageId userId freshId now w)
    as (H404 & H400 & H200 & H201 & H500).
  split_and!; try done. intros H. by destruct (H500 H).
Qed.

Lemma enroll_refusals_witness :
  let w := healthy (Sample.db (User.mk 0 1 0 None) [10; 10]) in
  let out := enroll "es" "u1" "e2" 5000 w in
  status out.1 = 400 ∧ db out.2 = db w ∧
  status (enroll "fr" "u1" "e2" 5000 w).1 = 404.
Proof.
  intros w out. split; [reflexivity|].
  split; [|reflexivity].
  exact (proj2 (proj1 (proj2 (enroll_refusals "es" "u1" "e2" 5000 w)) eq_refl)).
Defined.

(** X4: with a working store, a second enrollment request for the same user
    and language is refused with 400 and changes nothing, whatever the first
    one answered. *)
Theorem enroll_twice languageId userId freshId1 now1 freshId2 now2 d language :
  let out1 := enroll languageId userId freshId1 now1 (healthy d) in
  let out2 := enroll languageId userId freshId2 now2 out1.2 in
  Db.language_findUnique_active languageId d = Some language →
  out2 = (mkResponse 400 (ErrorBody "Already enrolled in this language"),
          out1.2).
Proof.
  intros out1 out2 Hlanguage. subst out2 out1.
  destruct (enrollments d !! (userId, languageId)) as [row|] eqn:Hrow.
  - destruct (Enrollment.isActive row) eqn:Hactive.
    + rewrite (enroll_healthy_already _ _ _ _ _ _ _ Hlanguage Hrow Hactive).
      cbn [snd].
      by rewrite (enroll_healthy_already _ _ _ _ _ _ _ Hlanguage Hrow Hactive).
    + rewrite (enroll_healthy_reactivated _ _ _ _ _ _ _ Hlanguage Hrow Hactive).
      cbn [snd].
      by erewrite enroll_healthy_already;
        [|exact Hlanguage|apply lookup_insert_eq|done].
  - rewrite (enroll_healthy_created _ _ _ _ _ _ Hlanguage Hrow). cbn [snd].
    by erewrite enroll_healthy_already;
      [|exact Hlanguage|apply lookup_insert_eq|done].
Qed.

Lemma enroll_twice_witness :
  let d := Sample.db (User.mk 0 1 0 None) [10; 10] in
  let out1 := enroll "es" "u2" "e2" 5000 (healthy d) in
  let out2 := enroll "es" "u2" "e3" 6000 out1.2 in
  status out1.1 = 201 ∧ status out2.1 = 400 ∧ out2.2 = out1.2.
Proof.
  intros d out1 out2. split; [reflexivity|].
  pose proof (enroll_twice "es" "u2" "e2" 5000 "e3" 6000 d (Language.mk true)
                eq_refl) as Htwice.
  fold d out1 out2 in Htwice. rewrite Htwice. split; reflexivity.
Defined.

(** ** Lesson completion on a working store *)

Lemma completeLesson_healthy lessonId userId score timeSpent now d lesson enrollment :
  let out := completeLesson lessonId userId score timeSpent now (healthy d) in
  Db.lesson_findUnique_active lessonId d = Some lesson →
  Db.enrollment_findFirst_active userId (Lesson.languageId lesson) d
    = Some enrollment →
  status out.1 = 200 ∧ faults out.2 = [].
Proof.
  intros out Hlesson Henrollment; subst out.
  unfold completeLesson, completeLesson_body, healthy.
  enter_handler. run_healthy.
  all: try done.
  all: congruence.
Qed.

(** X5: with a working store, after any enrollment request for an active
    language (created, reactivated or already enrolled), completing an active
    lesson of that language succeeds, whatever score is reported. *)
Theorem completion_after_enroll
    languageId userId freshId now d language lessonId lesson score timeSpent now' :
  let out1 := enroll languageId userId freshId now (healthy d) in
  let out2 := completeLesson lessonId userId score timeSpent now' out1.2 in
  Db.language_findUnique_active languageId d = Some language →
  Db.lesson_findUnique_active lessonId d = Some lesson →
  Lesson.languageId lesson = languageId →
  status out2.1 = 200 ∧
  ∃ row, progress (db out2.2) !! (userId, lessonId) = Some row
         ∧ Progress.completed row = true.
Proof.
  intros out1 out2 Hlanguage Hlesson Hsame.
  destruct (enroll_healthy_cases languageId userId freshId now d language
              Hlanguage) as (code & body & row & Hout1 & Hactive & _).
  subst out2 out1. rewrite Hout1. cbn [snd].
  set (d1 := Db.set_enrollments _ d).
  assert (enrollments d1 !! (userId, languageId) = Some row) as Hrow
    by apply lookup_insert_eq.
  assert (lessons d1 = lessons d) as Hlessons by done.
  assert (Db.lesson_findUnique_active lessonId d1 = Some lesson) as Hlesson1.
  { unfold Db.lesson_findUnique_active in *. by rewrite Hlessons. }
  assert (Db.enrollment_findFirst_active userId (Lesson.languageId lesson) d1
          = Some row) as Henrollment1.
  { unfold Db.enrollment_findFirst_active. by rewrite Hsame, Hrow, Hactive. }
  destruct (completeLesson_healthy lessonId userId score timeSpent now' d1
              lesson row Hlesson1 Henrollment1) as [Hok _].
  split; [exact Hok|].
  destruct (completeLesson_ok _ _ _ _ _ _ Hok)
    as (lesson' & enrollment' & _ & _ & _ & Hdb).
  cbv zeta in Hdb. rewrite Hdb. cbn [progress].
  eexists. split; [apply lookup_insert_eq|].
  unfold completedRow. by destruct (progress _ !! _).
Qed.

Lemma completion_after_enroll_witness :
  let d := Sample.db (User.mk 0 1 0 None) [10; 10] in
  let out1 := enroll "es" "u2" "e2" 5000 (healthy d) in
  let out2 := completeLesson "l1" "u2" 20 60 6000 out1.2 in
  status (completeLesson "l1" "u2" 20 60 6000 (healthy d)).1 = 403 ∧
  status out2.1 = 200.
Proof.
  intros d out1 out2. split; [reflexivity|].
  exact (proj1 (completion_after_enroll "es" "u2" "e2" 5000 d (Language.mk true)
                  "l1" Sample.lesson 20 60 6000 eq_refl eq_refl eq_refl)).
Defined.

(** X6: unenrolling is a soft delete: with a working store it leaves every
    Progress row in place, and from then on completing an active lesson of
    that language is refused with 403 and changes nothing. *)
Theorem completion_after_unenroll
    languageId userId d row lessonId lesson score timeSpent now :
  let out1 := unenroll languageId userId (healthy d) in
  let out2 := completeLesson lessonId userId score timeSpent now out1.2 in
  enrollments d !! (userId, languageId) = Some row →
  Db.lesson_findUnique_active lessonId d = Some lesson →
  Lesson.languageId lesson = languageId →
  progress (db out1.2) = progress d ∧
  out2 = (mkResponse 403 (ErrorBody "Not enrolled in this language"), out1.2).
Proof.
  intros out1 out2 Hrow Hlesson Hsame. subst out2 out1.
  rewrite (unenroll_found _ _ _ _ Hrow). cbn [snd]. split; [done|].
  unfold completeLesson, try_catch, completeLesson_body.
  rewrite (bind_value _ _ _ _ _ (query_healthy _ _)).
  change (Db.lesson_findUnique_active lessonId (Db.set_enrollments _ d))
    with (Db.lesson_findUnique_active lessonId d).
  rewrite Hlesson, (bind_value _ _ _ _ _ (query_healthy _ _)).
  unfold Db.enrollment_findFirst_active. cbn [enrollments Db.set_enrollments].
  by rewrite Hsame, lookup_insert_eq.
Qed.

Lemma completion_after_unenroll_witness :
  let d := Sample.db (User.mk 0 1 0 None) [10; 10] in
  let out0 := completeLesson "l1" "u1" 20 60 1000 (healthy d) in
  let out1 := unenroll "es" "u1" out0.2 in
  let out2 := completeLesson "l1" "u1" 20 60 2000 out1.2 in
  status out0.1 = 200 ∧
  progress (db out1.2) !! ("u1", "l1") = Some (Progress.mk "e1" 20 60 true 1000) ∧
  status out2.1 = 403 ∧ out2.2 = out1.2.
Proof.
  intros d out0 out1 out2. split; [reflexivity|]. split; [reflexivity|].
  assert (out0.2 = healthy (db out0.2)) as Hhealthy by reflexivity.
  destruct (completion_after_unenroll "es" "u1" (db out0.2)
              (Enrollment.mk "e1" 1 true 0) "l1" Sample.lesson 20 60 2000
              eq_refl eq_refl eq_refl) as [_ Hout2].
  rewrite <- Hhealthy in Hout2. fold out1 out2 in Hout2.
  rewrite Hout2. split; reflexivity.
Defined.

(** X7: what a completion request never touches, whatever the store does and
    whatever it answers: languages, lessons, exercises and enrollments stay as
    they are; Progress changes at the (user, lesson) key at most, users at the
    acting user's row at most; achievements are only appended to, at most two
    of them and only for the acting user. *)
Theorem completion_frame lessonId userId score timeSpent now w :
  let w' := (completeLesson lessonId userId score timeSpent now w).2 in
  languages (db w') = languages (db w) ∧
  lessons (db w') = lessons (db w) ∧
  exercises (db w') = exercises (db w) ∧
  enrollments (db w') = enrollments (db w) ∧
  (∀ key, key ≠ (userId, lessonId) →
          progress (db w') !! key = progress (db w) !! key) ∧
  (∀ id, id ≠ userId → users (db w') !! id = users (db w) !! id) ∧
  ∃ created,
    achievements (db w') = achievements (db w) ++ created ∧
    (length created ≤ 2)%nat ∧
    Forall (λ a, Achievement.userId a = userId) created.
Proof.
  intros w'; subst w'. unfold completeLesson, completeLesson_body.
  destruct w as [d fs]. enter_handler. run_handler.
  all: try done.
  all: split_and!; try done.
  all: try (intros key Hkey; by rewrite lookup_insert_ne).
  all: try (intros id Hid; by rewrite ?lookup_insert_ne).
  all: first
    [ by exists []; rewrite app_nil_r; split_and!; [done|cbn; lia|constructor]
    | by eexists [_]; split_and!; [done|cbn; lia|repeat constructor]
    | by eexists [_; _]; rewrite <- app_assoc; split_and!;
        [done|cbn; lia|repeat constructor] ].
Qed.

(** X8: a completion by an acting user who has no User row still succeeds: it
    writes the Progress row, reports level 1, creates no user row and no
    [level_up] achievement. *)
Theorem completion_without_user_row lessonId userId score timeSpent now w :
  let out := completeLesson lessonId userId score timeSpent now w in
  status out.1 = 200 →
  users (db w) !! userId = None →
  users (db out.2) = users (db w) ∧
  (∃ message row experienceGained,
     body out.1 = CompletedBody message row experienceGained 1 ∧
     progress (db out.2) !! (userId, lessonId) = Some row) ∧
  ∃ created,
    achievements (db out.2) = achievements (db w) ++ created ∧
    filter (λ a, Achievement.type a = "level_up") created = [].
Proof.
  intros out Hok Huser.
  destruct (completeLesson_ok _ _ _ _ _ _ Hok)
    as (lesson & enrollment & _ & _ & Hresp & Hdb).
  cbv zeta in Hresp, Hdb. fold out in Hresp, Hdb.
  rewrite Hresp, Hdb, Huser. cbn [users progress achievements body from_option].
  split; [done|]. split.
  - eexists _, _, _. split; [done|]. apply lookup_insert_eq.
  - eexists. split; [done|]. cbn [app]. apply perfect_part_not_level_up.
Qed.

Lemma completion_without_user_row_witness :
  let d := Sample.db (User.mk 0 1 0 None) [10; 10] in
  let w := healthy (Db.set_users (delete "u1") d) in
  let out := completeLesson "l1" "u1" 20 60 1000 w in
  status out.1 = 200 ∧ users (db w) !! "u1" = None ∧
  users (db out.2) = users (db w) ∧
  ∃ message row experienceGained,
    body out.1 = CompletedBody message row experienceGained 1 ∧
    progress (db out.2) !! ("u1", "l1") = Some row.
Proof.
  intros d w out. split; [reflexivity|]. split; [reflexivity|].
  destruct (completion_without_user_row "l1" "u1" 20 60 1000 w eq_refl eq_refl)
    as (Husers & Hbody & _).
  split; [exact Husers|exact Hbody].
Defined.

(** X9: a completion overwrites the Progress row of an earlier attempt: score,
    time and completion date are replaced (also by a lower score), the row
    stays completed, and it keeps the enrollment id it was created with, not
    the id of the enrollment found now. *)
Theorem completion_overwrites_progress
    lessonId userId score timeSpent now w old :
  let out := completeLesson lessonId userId score timeSpent now w in
  let totalPossiblePoints :=
    totalPoints (Db.exercise_findMany_active lessonId (db w)) in
  status out.1 = 200 →
  progress (db w) !! (userId, lessonId) = Some old →
  progress (db out.2) !! (userId, lessonId)
    = Some (Progress.mk (Progress.enrollmentId old)
              (score `min` totalPossiblePoints) timeSpent true now).
Proof.
  intros out total Hok Hold.
  destruct (completeLesson_ok _ _ _ _ _ _ Hok)
    as (lesson & enrollment & _ & _ & _ & Hdb).
  cbv zeta in Hdb. fold out in Hdb. rewrite Hdb. cbn [progress].
  rewrite lookup_insert_eq. unfold completedRow. by rewrite Hold.
Qed.

Lemma completion_overwrites_progress_witness :
  let d := Sample.db (User.mk 0 1 0 None) [10; 10] in
  let w := healthy (Db.set_progress
                      <[("u1", "l1") := Progress.mk "e0" 20 60 true 1000]> d) in
  let out := completeLesson "l1" "u1" 5 30 2000 w in
  status out.1 = 200 ∧
  progress (db out.2) !! ("u1", "l1") = Some (Progress.mk "e0" 5 30 true 2000).
Proof.
  intros d w out. split; [reflexivity|].
  exact (completion_overwrites_progress "l1" "u1" 5 30 2000 w
           (Progress.mk "e0" 20 60 true 1000) eq_refl eq_refl).
Defined.

Lemma completeLesson_healthy_step
    lessonId userId score timeSpent now d lesson enrollment user :
  let finalScore :=
    score `min` totalPoints (Db.exercise_findMany_active lessonId d) in
  let newExperience := User.experience user + finalScore / 10 in
  Db.lesson_findUnique_active lessonId d = Some lesson →
  Db.enrollment_findFirst_active userId (Lesson.languageId lesson) d
    = Some enrollment →
  users d !! userId = Some user →
  ∃ d',
    (completeLesson lessonId userId score timeSpent now (healthy d)).2
      = healthy d' ∧
    lessons d' = lessons d ∧ enrollments d' = enrollments d ∧
    exercises d' = exercises d ∧
    users d' !! userId
      = Some (User.mk newExperience (newExperience / 100 + 1)
                (User.streak user) (User.lastLogin user)) ∧
    progress d'
      = <[(userId, lessonId) :=
            completedRow d lessonId userId (Enrollment.id enrollment)
              finalScore timeSpent now]> (progress d).
Proof.
  intros finalScore newExperience Hlesson Henrollment Huser.
  destruct (completeLesson_healthy lessonId userId score timeSpent now d
              lesson enrollment Hlesson Henrollment) as [Hok Hfaults].
  destruct (completeLesson_ok _ _ _ _ _ _ Hok)
    as (lesson' & enrollment' & Hlesson' & Henrollment' & _ & Hdb).
  cbv zeta in Hdb. cbn [db healthy] in Hdb, Henrollment', Hlesson'.
  rewrite Hlesson in Hlesson'. injection Hlesson' as <-.
  rewrite Henrollment in Henrollment'. injection Henrollment' as <-.
  destruct (completeLesson _ _ _ _ _ _).2 as [d' fs'].
  cbn [db faults] in Hdb, Hfaults. subst fs'.
  exists d'. rewrite Hdb, Huser. cbn.
  split_and!; try done. apply lookup_insert_eq.
Qed.

Lemma completedRow_again d d' lessonId userId enrollmentId finalScore timeSpent now :
  progress d'
    = <[(userId, lessonId) :=
          completedRow d lessonId userId enrollmentId finalScore timeSpent now]>
        (progress d) →
  completedRow d' lessonId userId enrollmentId finalScore timeSpent now
    = completedRow d lessonId userId enrollmentId finalScore timeSpent now.
Proof.
  intros Hprogress. unfold completedRow at 1.
  rewrite Hprogress, lookup_insert_eq. cbn [from_option].
  unfold completedRow. by destruct (progress d !! _).
Qed.

Lemma repeated_completion_aux
    (n : nat) lessonId userId score timeSpent now lesson enrollment :
  ∀ d user,
    let finalScore :=
      score `min` totalPoints (Db.exercise_findMany_active lessonId d) in
    Db.lesson_findUnique_active lessonId d = Some lesson →
    Db.enrollment_findFirst_active userId (Lesson.languageId lesson) d
      = Some enrollment →
    users d !! userId = Some user →
    ∃ d' user',
      performAll
        (replicate n (CompleteLesson lessonId userId score timeSpent now))
        (healthy d) = healthy d' ∧
      users d' !! userId = Some user' ∧
      User.experience user'
        = User.experience user + Z.of_nat n * (finalScore / 10) ∧
      progress d'
        = match n with
          | O => progress d
          | S _ =>
              <[(userId, lessonId) :=
                  completedRow d lessonId userId (Enrollment.id enrollment)
                    finalScore timeSpent now]> (progress d)
          end.
Proof.
  induction n as [|n IH]; intros d user finalScore Hlesson Henrollment Huser.
  - exists d, user. cbn. split_and!; try done. lia.
  - destruct (completeLesson_healthy_step lessonId userId score timeSpent now d
                lesson enrollment user Hlesson Henrollment Huser)
      as (d1 & Hstep & Hlessons & Henrollments & Hexercises & Huser1 & Hprogress1).
    fold finalScore in Huser1, Hprogress1.
    assert (Db.exercise_findMany_active lessonId d1
            = Db.exercise_findMany_active lessonId d) as Hactive
      by (unfold Db.exercise_findMany_active; by rewrite Hexercises).
    assert (Db.lesson_findUnique_active lessonId d1 = Some lesson) as Hlesson1.
    { unfold Db.lesson_findUnique_active in *. by rewrite Hlessons. }
    assert (Db.enrollment_findFirst_active userId (Lesson.languageId lesson) d1
            = Some enrollment) as Henrollment1.
    { unfold Db.enrollment_findFirst_active in *. by rewrite Henrollments. }
    destruct (IH d1 _ Hlesson1 Henrollment1 Huser1)
      as (d' & user' & Hall & Huser' & Hexp & Hprogress).
    rewrite Hactive in Hexp, Hprogress. fold finalScore in Hexp, Hprogress.
    exists d', user'. split_and!.
    + unfold performAll in *. cbn [replicate fold_left perform].
      by rewrite Hstep.
    + done.
    + rewrite Hexp. cbn [User.experience]. lia.
    + rewrite Hprogress. destruct n; [done|].
      rewrite (completedRow_again d d1) by done.
      by rewrite Hprogress1, insert_insert_eq.
Qed.

(** X10: experience is granted again on every completion of the same lesson:
    with a working store, [n] completions in a row by an enrolled user add
    [n * floor(finalScore / 10)] to the experience, while Progress holds the
    one row of the (user, lesson) pair. *)
Theorem repeated_completion_accumulates
    (n : nat) lessonId userId score timeSpent now d lesson enrollment user :
  let w' := performAll
              (replicate n (CompleteLesson lessonId userId score timeSpent now))
              (healthy d) in
  let finalScore :=
    score `min` totalPoints (Db.exercise_findMany_active lessonId d) in
  Db.lesson_findUnique_active lessonId d = Some lesson →
  Db.enrollment_findFirst_active userId (Lesson.languageId lesson) d
    = Some enrollment →
  users d !! userId = Some user →
  (User.experience <$> users (db w') !! userId)
    = Some (User.experience user + Z.of_nat n * (finalScore / 10)) ∧
  ∀ key, key ≠ (userId, lessonId) →
         progress (db w') !! key = progress d !! key.
Proof.
  intros w' finalScore Hlesson Henrollment Huser.
  destruct (repeated_completion_aux n lessonId userId score timeSpent now
              lesson enrollment d user Hlesson Henrollment Huser)
    as (d' & user' & Hall & Huser' & Hexp & Hprogress).
  subst w'. rewrite Hall. cbn [db healthy]. rewrite Huser'. cbn.
  split; [by rewrite Hexp|].
  intros key Hkey. rewrite Hprogress.
  destruct n; [done|]. by rewrite lookup_insert_ne.
Qed.

Lemma repeated_completion_accumulates_witness :
  let d := Sample.db (User.mk 0 1 0 None) [10; 10] in
  let w' := performAll (replicate 7 (CompleteLesson "l1" "u1" 20 60 1000))
              (healthy d) in
  (User.experience <$> users (db w') !! "u1") = Some 14.
Proof.
  intros d w'.
  exact (proj1 (repeated_completion_accumulates 7 "l1" "u1" 20 60 1000 d
                  Sample.lesson (Enrollment.mk "e1" 1 true 0)
                  (User.mk 0 1 0 None) eq_refl eq_refl eq_refl)).
Defined.

(** ** More on the streak check *)

Lemma getStreak_frame userId today w :
  let out := getStreak userId today w in
  languages (db out.2) = languages (db w) ∧
  lessons (db out.2) = lessons (db w) ∧
  exercises (db out.2) = exercises (db w) ∧
  enrollments (db out.2) = enrollments (db w) ∧
  progress (db out.2) = progress (db w) ∧
  achievements (db out.2) = achievements (db w) ∧
  (users (db out.2) = users (db w)
   ∨ ∃ user newStreak,
       users (db w) !! userId = Some user ∧
       users (db out.2) = <[userId := setStreak newStreak user]> (users (db w))) ∧
  (status out.1 = 404 → users (db w) !! userId = None ∧ db out.2 = db w).
Proof.
  intros out; subst out. unfold getStreak, getStreak_body.
  destruct w as [d fs]. enter_handler. run_handler.
  all: try done.
  all: split_and!; try done; eauto.
Qed.

(** X11: the streak check changes nothing but the [streak] column of the
    acting user's row, whatever the store does and whatever it answers; a 404
    means that the user row is absent, and then nothing is written. *)
Theorem streak_check_frame userId today w :
  let out := getStreak userId today w in
  languages (db out.2) = languages (db w) ∧
  lessons (db out.2) = lessons (db w) ∧
  exercises (db out.2) = exercises (db w) ∧
  enrollments (db out.2) = enrollments (db w) ∧
  progress (db out.2) = progress (db w) ∧
  achievements (db out.2) = achievements (db w) ∧
  (∀ id, id ≠ userId → users (db out.2) !! id = users (db w) !! id) ∧
  (∀ user', users (db out.2) !! userId = Some user' →
     ∃ user, users (db w) !! userId = Some user
             ∧ user' = setStreak (User.streak user') user) ∧
  (status out.1 = 404 → users (db w) !! userId = None ∧ db out.2 = db w).
Proof.
  intros out.
  destruct (getStreak_frame userId today w)
    as (? & ? & ? & ? & ? & ? & Husers & H404).
  fold out in Husers, H404.
  split_and!; try done.
  - intros id Hid. destruct Husers as [->|(user & s & _ & ->)]; [done|].
    by rewrite lookup_insert_ne.
  - intros user' Huser'.
    destruct Husers as [Hsame|(user & s & Huser & Hnew)].
    + rewrite Hsame in Huser'. exists user'. split; [done|]. by destruct user'.
    + rewrite Hnew, lookup_insert_eq in Huser'. injection Huser' as <-.
      by exists user.
Qed.

Lemma streak_check_frame_witness :
  let w := healthy (Sample.db (User.mk 0 1 3 (Some 1000)) [10; 10]) in
  let out := getStreak "u9" 5000 w in
  status out.1 = 404 ∧ users (db w) !! "u9" = None ∧ db out.2 = db w.
Proof.
  intros w out. split; [reflexivity|].
  destruct (streak_check_frame "u9" 5000 w) as (_ & _ & _ & _ & _ & _ & _ & _ & H).
  exact (H eq_refl).
Defined.

(** X12: when less than one whole day lies between [lastLogin] and now (the
    same day, or a [lastLogin] that lies in the future), a successful streak
    check writes nothing at all and answers with the stored streak. *)
Theorem streak_check_same_day userId today w user lastLogin :
  let out := getStreak userId today w in
  users (db w) !! userId = Some user →
  User.lastLogin user = Some lastLogin →
  daysSinceLastLogin today lastLogin < 1 →
  status out.1 = 200 →
  db out.2 = db w ∧
  out.1 = mkResponse 200 (StreakBody (User.streak user) (Some lastLogin)).
Proof.
  intros out Huser Hlast Hdays Hok.
  destruct (getStreak_ok userId today w Hok)
    as (user' & Huser' & newStreak & Hresp & Hcases).
  rewrite Huser in Huser'. injection Huser' as <-.
  rewrite Hlast in Hresp, Hcases. cbv zeta in Hcases.
  destruct Hcases as (_ & _ & Hless). destruct (Hless Hdays) as [-> Husers].
  fold out in Hresp, Husers. split; [|done].
  destruct (getStreak_frame userId today w) as (? & ? & ? & ? & ? & ? & _).
  subst out.
  destruct (db (getStreak userId today w).2), (db w). cbn in *. congruence.
Qed.

Lemma streak_check_same_day_witness :
  let user := User.mk 0 1 3 (Some 1000) in
  let w := healthy (Sample.db user [10; 10]) in
  let out := getStreak "u1" (1000 + msPerDay - 1) w in
  daysSinceLastLogin (1000 + msPerDay - 1) 1000 < 1 ∧
  db out.2 = db w ∧
  out.1 = mkResponse 200 (StreakBody 3 (Some 1000)).
Proof.
  intros user w out. split; [reflexivity|].
  exact (streak_check_same_day "u1" (1000 + msPerDay - 1) w user 1000
           eq_refl eq_refl eq_refl eq_refl).
Defined.

Lemma getStreak_healthy_first userId today d user :
  users d !! userId = Some user →
  User.lastLogin user = None →
  getStreak userId today (healthy d)
    = (mkResponse 200 (StreakBody (User.streak user + 1) None),
       healthy (Db.set_users
                  <[userId := setStreak (User.streak user + 1) user]> d)).
Proof.
  intros Huser Hlast. unfold getStreak, try_catch, getStreak_body.
  rewrite (bind_value _ _ _ _ _ (query_healthy _ _)).
  unfold Db.user_findUnique. rewrite Huser, Hlast.
  erewrite bind_value; [|reflexivity]. cbv beta iota.
  erewrite bind_value; [reflexivity|].
  erewrite bind_value; [reflexivity|].
  apply prisma_healthy. unfold Db.user_update. by rewrite Huser.
Qed.

(** X13: for a user without a recorded [lastLogin] every streak check counts:
    with a working store, checks made at any times, one after the other, raise
    the streak by one each (no check records a login time). *)
Theorem streak_checks_without_lastLogin userId (times : list Z) d user :
  let w' := performAll (GetStreak userId <$> times) (healthy d) in
  users d !! userId = Some user →
  User.lastLogin user = None →
  users (db w') !! userId
    = Some (setStreak (User.streak user + Z.of_nat (length times)) user).
Proof.
  intros w'; subst w'. revert d user.
  induction times as [|today times IH]; intros d user Huser Hlast.
  - cbn. rewrite Huser, Z.add_0_r. by destruct user.
  - unfold performAll. cbn [fmap list_fmap fold_left perform].
    rewrite (getStreak_healthy_first _ _ _ _ Huser Hlast). cbn [snd].
    fold (performAll (GetStreak userId <$> times)
            (healthy (Db.set_users
                        <[userId := setStreak (User.streak user + 1) user]> d))).
    rewrite (IH _ (setStreak (User.streak user + 1) user));
      [|apply lookup_insert_eq|done].
    unfold setStreak. cbn. do 2 f_equal. lia.
Qed.

Lemma streak_checks_without_lastLogin_witness :
  let user := User.mk 0 1 0 None in
  let d := Sample.db user [10; 10] in
  let w' := performAll (GetStreak "u1" <$> [1000; 1001; 1002]) (healthy d) in
  users (db w') !! "u1" = Some (User.mk 0 1 3 None).
Proof.
  intros user d w'.
  exact (streak_checks_without_lastLogin "u1" [1000; 1001; 1002] d user
           eq_refl eq_refl).
Defined.

Lemma getStreak_healthy_next_day userId today d user lastLogin :
  users d !! userId = Some user →
  User.lastLogin user = Some lastLogin →
  daysSinceLastLogin today lastLogin = 1 →
  getStreak userId today (healthy d)
    = (mkResponse 200 (StreakBody (User.streak user + 1) (Some lastLogin)),
       healthy (Db.set_users
                  <[userId := setStreak (User.streak user + 1) user]> d)).
Proof.
  intros Huser Hlast Hdays. unfold getStreak, try_catch, getStreak_body.
  rewrite (bind_value _ _ _ _ _ (query_healthy _ _)).
  unfold Db.user_findUnique. rewrite Huser, Hlast. cbv zeta.
  rewrite bool_decide_true by done.
  erewrite bind_value; [|reflexivity]. cbv beta iota.
  erewrite bind_value; [reflexivity|].
  erewrite bind_value; [reflexivity|].
  apply prisma_healthy. unfold Db.user_update. by rewrite Huser.
Qed.

(** X14: while [lastLogin] is one whole day back, every streak check counts
    again: with a working store, checks at times that all lie one whole day
    after [lastLogin] raise the streak by one each. *)
Theorem streak_checks_one_day_after userId (times : list Z) d user lastLogin :
  let w' := performAll (GetStreak userId <$> times) (healthy d) in
  users d !! userId = Some user →
  User.lastLogin user = Some lastLogin →
  Forall (λ today, daysSinceLastLogin today lastLogin = 1) times →
  users (db w') !! userId
    = Some (setStreak (User.streak user + Z.of_nat (length times)) user).
Proof.
  intros w' Huser Hlast Htimes; subst w'. revert d user Huser Hlast.
  induction Htimes as [|today times Hday _ IH]; intros d user Huser Hlast.
  - cbn. rewrite Huser, Z.add_0_r. by destruct user.
  - unfold performAll. cbn [fmap list_fmap fold_left perform].
    rewrite (getStreak_healthy_next_day _ _ _ _ _ Huser Hlast Hday). cbn [snd].
    fold (performAll (GetStreak userId <$> times)
            (healthy (Db.set_users
                        <[userId := setStreak (User.streak user + 1) user]> d))).
    rewrite (IH _ (setStreak (User.streak user + 1) user));
      [|apply lookup_insert_eq|done].
    unfold setStreak. cbn. do 2 f_equal. lia.
Qed.

Lemma streak_checks_one_day_after_witness :
  let user := User.mk 0 1 3 (Some 1000) in
  let d := Sample.db user [10; 10] in
  let times := [1000 + msPerDay; 2000 + msPerDay; 999 + 2 * msPerDay] in
  let w' := performAll (GetStreak "u1" <$> times) (healthy d) in
  users (db w') !! "u1" = Some (User.mk 0 1 6 (Some 1000)).
Proof.
  intros user d times w'.
  apply (streak_checks_one_day_after "u1" times d user 1000);
    [reflexivity|reflexivity|].
  repeat constructor.
Defined.

(** ** More on unenrollment *)

(** X15: unenrolling never removes anything, whatever the store does and
    whatever it answers: the same (user, language) pairs have rows afterwards,
    every row keeps its id, level and start date, no row becomes active, rows
    of other pairs are unchanged, and users, Progress and achievements are not
    touched. *)
Theorem unenroll_frame languageId userId w :
  let w' := (unenroll languageId userId w).2 in
  users (db w') = users (db w) ∧
  progress (db w') = progress (db w) ∧
  achievements (db w') = achievements (db w) ∧
  lessons (db w') = lessons (db w) ∧
  languages (db w') = languages (db w) ∧
  (∀ key, key ≠ (userId, languageId) →
          enrollments (db w') !! key = enrollments (db w) !! key) ∧
  (∀ key row', enrollments (db w') !! key = Some row' →
     ∃ row, enrollments (db w) !! key = Some row ∧
            Enrollment.id row' = Enrollment.id row ∧
            Enrollment.level row' = Enrollment.level row ∧
            Enrollment.startedAt row' = Enrollment.startedAt row ∧
            (Enrollment.isActive row' = true → Enrollment.isActive row = true)) ∧
  (∀ key, is_Some (enrollments (db w) !! key) →
          is_Some (enrollments (db w') !! key)).
Proof.
  intros w'; subst w'. unfold unenroll, unenroll_body.
  destruct w as [d fs]. enter_handler. run_handler.
  all: try done.
  all: split_and!; try done; eauto 10.
  - intros key Hkey. by rewrite lookup_insert_ne.
  - intros key row'. destruct (decide (key = (userId, languageId))) as [->|Hne].
    + rewrite lookup_insert_eq. intros [= <-]. eexists. by split_and!.
    + rewrite lookup_insert_ne by done. intros Hrow. eexists. by split_and!.
  - intros key. destruct (decide (key = (userId, languageId))) as [->|Hne].
    + rewrite lookup_insert_eq. eauto.
    + by rewrite lookup_insert_ne.
Qed.

(** ** Read routes *)

Lemma post_respond {A} (h : Handler A) error w
    (Q : A + Response → World → Prop) :
  post h w (λ s w', match s with
                    | Value payload => Q (inl payload) w'
                    | Reply r => Q (inr r) w'
                    | Throw => Q (inr (mkResponse 500 (ErrorBody error))) w'
                    end) →
  Q (respond h error w).1 (respond h error w).2.
Proof.
  unfold post, respond. by destruct (h w) as [[payload|r|] w'].
Qed.

Ltac enter_respond :=
  lazymatch goal with
  | |- context [respond ?h ?e ?w] =>
      pattern (respond h e w).1, (respond h e w).2;
      apply post_respond
  end.

Lemma completeLesson_healthy_no_lesson lessonId userId score timeSpent now d :
  Db.lesson_findUnique_active lessonId d = None →
  completeLesson lessonId userId score timeSpent now (healthy d)
    = (mkResponse 404 (ErrorBody "Lesson not found"), healthy d).
Proof.
  intros Hlesson. unfold completeLesson, try_catch, completeLesson_body.
  by rewrite (bind_value _ _ _ _ _ (query_healthy _ _)), Hlesson.
Qed.

Lemma completeLesson_healthy_not_enrolled
    lessonId userId score timeSpent now d lesson :
  Db.lesson_findUnique_active lessonId d = Some lesson →
  Db.enrollment_findFirst_active userId (Lesson.languageId lesson) d = None →
  completeLesson lessonId userId score timeSpent now (healthy d)
    = (mkResponse 403 (ErrorBody "Not enrolled in this language"), healthy d).
Proof.
  intros Hlesson Henrollment.
  unfold completeLesson, try_catch, completeLesson_body.
  rewrite (bind_value _ _ _ _ _ (query_healthy _ _)), Hlesson.
  by rewrite (bind_value _ _ _ _ _ (query_healthy _ _)), Henrollment.
Qed.

Lemma completeLesson_healthy_store
    lessonId userId score timeSpent now d lesson enrollment :
  let out := completeLesson lessonId userId score timeSpent now (healthy d) in
  let finalScore :=
    score `min` totalPoints (Db.exercise_findMany_active lessonId d) in
  let row := completedRow d lessonId userId (Enrollment.id enrollment)
               finalScore timeSpent now in
  Db.lesson_findUnique_active lessonId d = Some lesson →
  Db.enrollment_findFirst_active userId (Lesson.languageId lesson) d
    = Some enrollment →
  ∃ d' message experienceGained newLevel,
    out.2 = healthy d' ∧
    out.1 = mkResponse 200 (CompletedBody message row experienceGained newLevel) ∧
    lessons d' = lessons d ∧ enrollments d' = enrollments d ∧
    progress d' = <[(userId, lessonId) := row]> (progress d).
Proof.
  intros out finalScore row Hlesson Henrollment.
  destruct (completeLesson_healthy lessonId userId score timeSpent now d
              lesson enrollment Hlesson Henrollment) as [Hok Hfaults].
  destruct (completeLesson_ok _ _ _ _ _ _ Hok)
    as (lesson' & enrollment' & Hlesson' & Henrollment' & Hresp & Hdb).
  cbv zeta in Hresp, Hdb. cbn [db healthy] in Hresp, Hdb, Henrollment', Hlesson'.
  rewrite Hlesson in Hlesson'. injection Hlesson' as <-.
  rewrite Henrollment in Henrollment'. injection Henrollment' as <-.
  fold out in Hresp, Hdb, Hfaults.
  destruct out.2 as [d' fs']. cbn [db faults] in Hdb, Hfaults. subst fs'.
  exists d'. eexists _, _, _. rewrite Hresp, Hdb. by split_and!.
Qed.

Lemma lessonProgress_healthy lessonId userId d lesson enrollment :
  Db.lesson_findUnique_active lessonId d = Some lesson →
  Db.enrollment_findFirst_active userId (Lesson.languageId lesson) d
    = Some enrollment →
  lessonProgress lessonId userId (healthy d)
    = (inl (LessonWithProgress.mk lesson (progress d !! (userId, lessonId)) true),
       healthy d).
Proof.
  intros Hlesson Henrollment. unfold lessonProgress, respond, lessonProgress_body.
  rewrite (bind_value _ _ _ _ _ (query_healthy _ _)), Hlesson.
  rewrite (bind_value _ _ _ _ _ (query_healthy _ _)), Henrollment.
  by rewrite (bind_value _ _ _ _ _ (query_healthy _ _)).
Qed.

Lemma lessonProgress_healthy_no_lesson lessonId userId d :
  Db.lesson_findUnique_active lessonId d = None →
  lessonProgress lessonId userId (healthy d)
    = (inr (mkResponse 404 (ErrorBody "Lesson not found")), healthy d).
Proof.
  intros Hlesson. unfold lessonProgress, respond, lessonProgress_body.
  by rewrite (bind_value _ _ _ _ _ (query_healthy _ _)), Hlesson.
Qed.

Lemma lessonProgress_healthy_not_enrolled lessonId userId d lesson :
  Db.lesson_findUnique_active lessonId d = Some lesson →
  Db.enrollment_findFirst_active userId (Lesson.languageId lesson) d = None →
  lessonProgress lessonId userId (healthy d)
    = (inr (mkResponse 403 (ErrorBody "Not enrolled in this language")),
       healthy d).
Proof.
  intros Hlesson Henrollment. unfold lessonProgress, respond, lessonProgress_body.
  rewrite (bind_value _ _ _ _ _ (query_healthy _ _)), Hlesson.
  by rewrite (bind_value _ _ _ _ _ (query_healthy _ _)), Henrollment.
Qed.

(** X16: what a completion writes is what the lesson page reads: with a
    working store, GET /lessons/:id/progress after a completion returns the
    lesson with [userProgress] equal to the Progress row the completion
    answered with (score clamped, completed, dated [now]) and [isUnlocked]
    true, and changes nothing. *)
Theorem completion_read_back
    lessonId userId score timeSpent now d lesson enrollment :
  let out1 := completeLesson lessonId userId score timeSpent now (healthy d) in
  let out2 := lessonProgress lessonId userId out1.2 in
  let finalScore :=
    score `min` totalPoints (Db.exercise_findMany_active lessonId d) in
  Db.lesson_findUnique_active lessonId d = Some lesson →
  Db.enrollment_findFirst_active userId (Lesson.languageId lesson) d
    = Some enrollment →
  ∃ row message experienceGained newLevel,
    body out1.1 = CompletedBody message row experienceGained newLevel ∧
    out2 = (inl (LessonWithProgress.mk lesson (Some row) true), out1.2) ∧
    Progress.score row = finalScore ∧ Progress.timeSpent row = timeSpent ∧
    Progress.completed row = true ∧ Progress.completedAt row = now.
Proof.
  intros out1 out2 finalScore Hlesson Henrollment.
  destruct (completeLesson_healthy_store lessonId userId score timeSpent now d
              lesson enrollment Hlesson Henrollment)
    as (d' & message & gained & level & Hworld & Hresp & Hlessons & Henrollments
        & Hprogress).
  fold out1 finalScore in Hworld, Hresp. subst out2.
  rewrite Hworld, Hresp. cbn [body].
  eexists _, _, _, _. split; [done|]. split.
  - erewrite lessonProgress_healthy.
    + by rewrite Hprogress, lookup_insert_eq.
    + unfold Db.lesson_findUnique_active in *. by rewrite Hlessons.
    + unfold Db.enrollment_findFirst_active in *. by rewrite Henrollments.
  - unfold completedRow. by destruct (progress d !! _).
Qed.

Lemma completion_read_back_witness :
  let d := Sample.db (User.mk 0 1 0 None) [10; 10] in
  let out1 := completeLesson "l1" "u1" 25 60 1000 (healthy d) in
  let out2 := lessonProgress "l1" "u1" out1.2 in
  ∃ row,
    out2.1 = inl (LessonWithProgress.mk Sample.lesson (Some row) true) ∧
    Progress.score row = 20.
Proof.
  intros d out1 out2.
  destruct (completion_read_back "l1" "u1" 25 60 1000 d Sample.lesson
              (Enrollment.mk "e1" 1 true 0) eq_refl eq_refl)
    as (row & _ & _ & _ & _ & Hout2 & Hscore & _).
  exists row. split; [|exact Hscore].
  fold d out1 out2 in Hout2. by rewrite Hout2.
Defined.

(** X17: the lesson page and the completion route refuse the same requests:
    with a working store, whenever GET /lessons/:id/progress answers with an
    error, a completion request for the same user and lesson gets the same
    answer and changes nothing, and whenever the page is served, a completion
    succeeds. *)
Theorem lesson_page_and_completion_agree lessonId userId score timeSpent now d :
  match (lessonProgress lessonId userId (healthy d)).1 with
  | inl _ =>
      status (completeLesson lessonId userId score timeSpent now (healthy d)).1
        = 200
  | inr r =>
      completeLesson lessonId userId score timeSpent now (healthy d)
        = (r, healthy d)
  end.
Proof.
  destruct (Db.lesson_findUnique_active lessonId d) as [lesson|] eqn:Hlesson.
  - destruct (Db.enrollment_findFirst_active userId (Lesson.languageId lesson) d)
      as [enrollment|] eqn:Henrollment.
    + rewrite (lessonProgress_healthy _ _ _ _ _ Hlesson Henrollment). cbn [fst].
      by destruct (completeLesson_healthy lessonId userId score timeSpent now d
                     lesson enrollment Hlesson Henrollment).
    + rewrite (lessonProgress_healthy_not_enrolled _ _ _ _ Hlesson Henrollment).
      by apply (completeLesson_healthy_not_enrolled _ _ _ _ _ _ lesson).
  - rewrite (lessonProgress_healthy_no_lesson _ _ _ Hlesson).
    by apply completeLesson_healthy_no_lesson.
Qed.

Lemma progressOfLesson_healthy lessonId userId d :
  progressOfLesson lessonId userId (healthy d)
    = (inl (progress d !! (userId, lessonId)), healthy d).
Proof.
  unfold progressOfLesson, respond, progressOfLesson_body.
  rewrite (bind_value _ _ _ _ _ (query_healthy _ _)).
  unfold Query.progress_findUnique. by destruct (progress d !! _).
Qed.

(** X18: Progress outlives the enrollment, and the two routes that read it
    disagree from then on: with a working store, after unenrolling,
    GET /progress/lesson/:lessonId still returns the user's row for a lesson of
    that language, while GET /lessons/:id/progress refuses with 403. *)
Theorem progress_outlives_enrollment lessonId userId d lesson row recorded :
  let out := unenroll (Lesson.languageId lesson) userId (healthy d) in
  Db.lesson_findUnique_active lessonId d = Some lesson →
  enrollments d !! (userId, Lesson.languageId lesson) = Some row →
  progress d !! (userId, lessonId) = Some recorded →
  progressOfLesson lessonId userId out.2 = (inl (Some recorded), out.2) ∧
  lessonProgress lessonId userId out.2
    = (inr (mkResponse 403 (ErrorBody "Not enrolled in this language")), out.2).
Proof.
  intros out Hlesson Hrow Hrecorded. subst out.
  rewrite (unenroll_found _ _ _ _ Hrow). cbn [snd]. split.
  - rewrite progressOfLesson_healthy. cbn. by rewrite Hrecorded.
  - apply lessonProgress_healthy_not_enrolled with lesson; [done|].
    unfold Db.enrollment_findFirst_active. cbn.
    by rewrite lookup_insert_eq.
Qed.

Lemma progress_outlives_enrollment_witness :
  let d := Db.set_progress
             <[("u1", "l1") := Progress.mk "e1" 20 60 true 1000]>
             (Sample.db (User.mk 2 1 0 None) [10; 10]) in
  let out := unenroll "es" "u1" (healthy d) in
  (progressOfLesson "l1" "u1" out.2).1
    = inl (Some (Progress.mk "e1" 20 60 true 1000)) ∧
  (lessonProgress "l1" "u1" out.2).1
    = inr (mkResponse 403 (ErrorBody "Not enrolled in this language")).
Proof.
  intros d out.
  destruct (progress_outlives_enrollment "l1" "u1" d Sample.lesson
              (Enrollment.mk "e1" 1 true 0) (Progress.mk "e1" 20 60 true 1000)
              eq_refl eq_refl eq_refl) as [Hrow Hpage].
  split; [exact (f_equal fst Hrow)|exact (f_equal fst Hpage)].
Defined.

(** ** The next lesson *)

Section NextLessonFacts.
Variable order : string → Z.

#[local] Instance byOrder_transitive : Transitive (byOrder order).
Proof. intros a b c. unfold byOrder. lia. Qed.

#[local] Instance byOrder_total : Total (byOrder order).
Proof. intros a b. unfold byOrder. lia. Qed.

Lemma lesson_findFirst_after_Some languageId currentOrder d id found :
  lesson_findFirst_after order languageId currentOrder d = Some (id, found) →
  lessons d !! id = Some found ∧
  Lesson.languageId found = languageId ∧
  Lesson.isActive found = true ∧
  currentOrder < order id ∧
  ∀ id' other,
    lessons d !! id' = Some other →
    Lesson.languageId other = languageId →
    Lesson.isActive other = true →
    currentOrder < order id' →
    order id ≤ order id'.
Proof.
  unfold lesson_findFirst_after.
  set (candidates := filter _ (map_to_list (lessons d))).
  intros Hhead.
  assert ((id, found) ∈ candidates) as Hin.
  { rewrite <- (merge_sort_Permutation (byOrder order)).
    by apply head_Some_elem_of. }
  apply list_elem_of_filter in Hin as [(Hlanguage & Horder & Hactive) Hrow].
  apply elem_of_map_to_list' in Hrow. cbn in *.
  split_and!; [done|done|done|lia|].
  intros id' other Hother Hlanguage' Hactive' Horder'.
  assert ((id', other) ∈ merge_sort (byOrder order) candidates) as Hin'.
  { rewrite merge_sort_Permutation. apply list_elem_of_filter.
    split; [cbn; split_and!; [done|lia|done]|].
    by apply elem_of_map_to_list'. }
  pose proof (StronglySorted_merge_sort (byOrder order) candidates) as Hsorted.
  destruct (merge_sort (byOrder order) candidates) as [|first rest];
    [done|].
  injection Hhead as ->.
  apply elem_of_cons in Hin' as [[= -> ->]|Hrest]; [lia|].
  apply StronglySorted_inv in Hsorted as [_ Hfirst].
  rewrite Forall_forall in Hfirst. apply (Hfirst _ Hrest).
Qed.

Lemma lesson_findFirst_after_None languageId currentOrder d :
  lesson_findFirst_after order languageId currentOrder d = None →
  ∀ id' other,
    lessons d !! id' = Some other →
    Lesson.languageId other = languageId →
    Lesson.isActive other = true →
    order id' ≤ currentOrder.
Proof.
  unfold lesson_findFirst_after.
  set (candidates := filter _ (map_to_list (lessons d))).
  intros Hhead id' other Hother Hlanguage Hactive.
  destruct (decide (order id' ≤ currentOrder)) as [|Hgt]; [done|].
  assert ((id', other) ∈ merge_sort (byOrder order) candidates) as Hin.
  { rewrite merge_sort_Permutation. apply list_elem_of_filter.
    split; [cbn; split_and!; [done|lia|done]|].
    by apply elem_of_map_to_list'. }
  destruct (merge_sort (byOrder order) candidates); [|done].
  by apply not_elem_of_nil in Hin.
Qed.

(** X19: GET /lessons/:id/next recommends the active lesson of the current
    lesson's language with the least [order] above the current one, and
    [null] only when no active lesson of that language has a greater [order];
    the current lesson itself may be inactive. It answers 404 only when the
    current lesson has no row, and never writes. *)
Theorem next_lesson_is_least currentLessonId w :
  let out := nextLesson order currentLessonId w in
  db out.2 = db w ∧
  match out.1 with
  | inl (Some (id, found)) =>
      ∃ current,
        lessons (db w) !! currentLessonId = Some current ∧
        lessons (db w) !! id = Some found ∧
        Lesson.languageId found = Lesson.languageId current ∧
        Lesson.isActive found = true ∧
        order currentLessonId < order id ∧
        ∀ id' other,
          lessons (db w) !! id' = Some other →
          Lesson.languageId other = Lesson.languageId current →
          Lesson.isActive other = true →
          order currentLessonId < order id' →
          order id ≤ order id'
  | inl None =>
      ∃ current,
        lessons (db w) !! currentLessonId = Some current ∧
        ∀ id' other,
          lessons (db w) !! id' = Some other →
          Lesson.languageId other = Lesson.languageId current →
          Lesson.isActive other = true →
          order id' ≤ order currentLessonId
  | inr r =>
      status r = 404 ∧ lessons (db w) !! currentLessonId = None
      ∨ status r = 500 ∧ faults w ≠ []
  end.
Proof.
  intros out; subst out. unfold nextLesson, nextLesson_body.
  destruct w as [d fs]. enter_respond.
  apply post_bind. destruct fs as [|fault fs].
  - apply post_query_healthy. unfold Query.lesson_findUnique.
    destruct (lessons d !! currentLessonId) as [current|] eqn:Hcurrent;
      [|apply post_reply; eauto].
    apply post_bind, post_query_healthy, post_ret. cbn [db]. split; [done|].
    destruct (lesson_findFirst_after _ _ _ _) as [[id found]|] eqn:Hnext.
    + exists current. split; [done|].
      by apply lesson_findFirst_after_Some in Hnext.
    + exists current. split; [done|].
      by apply lesson_findFirst_after_None.
  - apply post_query; intros fs'; [cbn; eauto|].
    unfold Query.lesson_findUnique.
    destruct (lessons d !! currentLessonId) as [current|] eqn:Hcurrent;
      [|apply post_reply; eauto].
    apply post_bind, post_query; intros fs''; [cbn; eauto|].
    apply post_ret. cbn [db]. split; [done|].
    destruct (lesson_findFirst_after _ _ _ _) as [[id found]|] eqn:Hnext.
    + exists current. split; [done|].
      by apply lesson_findFirst_after_Some in Hnext.
    + exists current. split; [done|].
      by apply lesson_findFirst_after_None.
Qed.
End NextLessonFacts.

(** Three lessons of one language, the second one inactive: after the first
    comes the third. *)
Lemma next_lesson_is_least_witness :
  let order id :=
    if decide (id = "l1") then 1 else if decide (id = "l2") then 2 else 3 in
  let d := mkDB ∅ ∅
             {[ "l1" := Lesson.mk "Greetings" "es" true;
                "l2" := Lesson.mk "Numbers" "es" false;
                "l3" := Lesson.mk "Colors" "es" true ]}
             [] ∅ ∅ [] in
  let out := nextLesson order "l1" (healthy d) in
  out.1 = inl (Some ("l3", Lesson.mk "Colors" "es" true)) ∧
  ∃ current, lessons d !! "l1" = Some current
             ∧ Lesson.languageId current = "es".
Proof.
  intros order d out. split; [vm_compute; reflexivity|].
  pose proof (next_lesson_is_least order "l1" (healthy d)) as [_ Hleast].
  fold out in Hleast. 
  assert (out.1 = inl (Some ("l3", Lesson.mk "Colors" "es" true))) as Hout
    by (vm_compute; reflexivity).
  rewrite Hout in Hleast. destruct Hleast as (current & Hcurrent & _ & Hsame & _).
  exists current. split; [exact Hcurrent|]. symmetry. exact Hsame.
Defined.

(** ** Available achievements *)

Lemma nextTarget_Some targets progress target :
  StronglySorted Z.le targets →
  nextTarget targets progress = Some target →
  target ∈ targets ∧ progress < target ∧
  ∀ other, other ∈ targets → progress < other → target ≤ other.
Proof.
  unfold nextTarget. induction 1 as [|first rest Hrest IH Hfirst]; [done|].
  cbn [List.find]. case_bool_decide as Hcmp.
  - intros [= <-]. split; [left|]. split; [lia|].
    intros other [->|Hin]%elem_of_cons _; [lia|].
    rewrite Forall_forall in Hfirst. by apply Hfirst.
  - intros Hfind. destruct (IH Hfind) as (Hin & Hlt & Hleast).
    split; [by right|]. split; [done|].
    intros other [->|Hin']%elem_of_cons Hother; [lia|]. by apply Hleast.
Qed.

Lemma nextTarget_None targets progress :
  nextTarget targets progress = None →
  ∀ target, target ∈ targets → target ≤ progress.
Proof.
  unfold nextTarget. induction targets as [|first rest IH]; intros Hfind target.
  - by intros ?%elem_of_nil.
  - cbn [List.find] in Hfind. case_bool_decide as Hcmp; [done|].
    intros [->|Hin]%elem_of_cons; [lia|]. by apply IH.
Qed.

Lemma streakTargets_sorted : StronglySorted Z.le streakTargets.
Proof. unfold streakTargets. repeat constructor; lia. Qed.

Lemma nextTarget_streak_Some streak :
  is_Some (nextTarget streakTargets streak) ↔ streak < 100.
Proof.
  unfold nextTarget, streakTargets. cbn [List.find].
  repeat case_bool_decide; split; intros Hsome; try lia; try by eexists.
  all: by destruct Hsome.
Qed.

(** The list the handler assembles, over the five numbers it is built from. *)
Lemma suggestions_facts (level streak completed perfect : Z) (hasLessons : bool) :
  let suggestions :=
    (if bool_decide (level < 10) then
       [Suggestion.mk "level_up" ("Reach Level " +:+ pretty (level + 1))
          level (level + 1)]
     else []) ++
    match nextTarget streakTargets streak with
    | Some nextStreakTarget =>
        [Suggestion.mk "streak" (pretty nextStreakTarget +:+ " Day Streak")
           streak nextStreakTarget]
    | None => []
    end ++
    (if hasLessons then
       match nextTarget lessonTargets completed with
       | Some nextLessonTarget =>
           [Suggestion.mk "lesson_complete"
              ("Complete " +:+ pretty nextLessonTarget +:+ " Lessons")
              completed nextLessonTarget]
       | None => []
       end
     else []) ++
    match nextTarget perfectScoreTargets perfect with
    | Some nextPerfectScoreTarget =>
        [Suggestion.mk "perfect_score"
           (pretty nextPerfectScoreTarget +:+ " Perfect Scores")
           perfect nextPerfectScoreTarget]
    | None => []
    end in
  Forall (λ s, Suggestion.progress s < Suggestion.target s) suggestions ∧
  NoDup (Suggestion.type <$> suggestions) ∧
  (length suggestions ≤ 4)%nat ∧
  (∀ s, s ∈ suggestions → Suggestion.type s = "streak" →
        Suggestion.progress s = streak ∧
        nextTarget streakTargets streak = Some (Suggestion.target s)) ∧
  (is_Some (nextTarget streakTargets streak) →
   ∃ s, s ∈ suggestions ∧ Suggestion.type s = "streak") ∧
  (∀ s, s ∈ suggestions → Suggestion.type s = "level_up" →
        level < 10 ∧ Suggestion.progress s = level
        ∧ Suggestion.target s = level + 1) ∧
  (level < 10 → ∃ s, s ∈ suggestions ∧ Suggestion.type s = "level_up") ∧
  (∀ s, s ∈ suggestions → Suggestion.type s = "lesson_complete" →
        hasLessons = true ∧ Suggestion.progress s = completed
        ∧ nextTarget lessonTargets completed = Some (Suggestion.target s)) ∧
  (∀ s, s ∈ suggestions → Suggestion.type s = "perfect_score" →
        Suggestion.progress s = perfect
        ∧ nextTarget perfectScoreTargets perfect = Some (Suggestion.target s)).
Proof.
  intros suggestions; subst suggestions.
  assert (∀ targets x t, nextTarget targets x = Some t → x < t) as Hgt.
  { unfold nextTarget. intros targets x t [_ Ht%bool_decide_eq_true]%find_some.
    lia. }
  destruct (nextTarget streakTargets streak) as [st|] eqn:Hst;
    destruct (nextTarget lessonTargets completed) as [lt|] eqn:Hlt;
    destruct (nextTarget perfectScoreTargets perfect) as [pt|] eqn:Hpt;
    destruct hasLessons; case_bool_decide as Hlevel; cbn [app].
  all: try pose proof (Hgt _ _ _ Hst).
  all: try pose proof (Hgt _ _ _ Hlt).
  all: try pose proof (Hgt _ _ _ Hpt).
  all: split; [repeat constructor; cbn; lia|].
  all: split; [cbn; by apply (bool_decide_unpack _)|].
  all: split; [cbn; lia|].
  all: split_and!.
  all: try (intros s Hs Htype;
            repeat (apply elem_of_cons in Hs; destruct Hs as [->|Hs]);
            try (by apply elem_of_nil in Hs); by cbn in * ).
  all: try by intros [].
  all: try lia.
  all: intros _; eexists;
    first [ by (split; [apply list_elem_of_here|])
          | by (split; [apply list_elem_of_further, list_elem_of_here|]) ].
Qed.

Ltac name_progress_rows :=
  match goal with
  | |- context [countProgress _ ?rows] => set (progressRows := rows) in *
  end.

(** X20: every entry of GET /achievements/available has a target strictly
    above its progress; there is at most one entry per type, at most four in
    all. The route never writes; when it answers with an error, that is 404
    with the user row absent, or 500. *)
Theorem available_targets_exceed_progress userId w :
  let out := availableAchievements userId w in
  db out.2 = db w ∧
  match out.1 with
  | inl suggestions =>
      Forall (λ s, Suggestion.progress s < Suggestion.target s) suggestions ∧
      NoDup (Suggestion.type <$> suggestions) ∧
      (length suggestions ≤ 4)%nat
  | inr r =>
      status r = 404 ∧ users (db w) !! userId = None ∨ status r = 500
  end.
Proof.
  intros out; subst out. unfold availableAchievements, availableAchievements_body.
  destruct w as [d fs]. enter_respond. run_handler.
  all: try (split; [done|]; eauto; fail).
  split; [done|]. name_progress_rows.
  pose proof (suggestions_facts (User.level t) (User.streak t)
                (countProgress Progress.completed progressRows)
                (countProgress (λ p, Progress.completed p
                                     && bool_decide (Progress.score p >= 90))
                               progressRows)
                (bool_decide (countProgress (λ _, true) progressRows > 0)))
    as (Hlt & Hnodup & Hlen & _).
  done.
Qed.

(** X21: the streak entry of GET /achievements/available is there exactly
    when the streak is below 100, and its target is the least of 7, 14, 30, 60
    and 100 above the streak: one of them, above the streak, and at most every
    other one above the streak. The level entry is there exactly when the
    level is below 10, with the level as progress and the next level as
    target. *)
Theorem available_streak_and_level userId w :
  match (availableAchievements userId w).1 with
  | inl suggestions =>
      ∃ user,
        users (db w) !! userId = Some user ∧
        (∀ s, s ∈ suggestions → Suggestion.type s = "streak" →
           Suggestion.progress s = User.streak user ∧
           Suggestion.target s ∈ [7; 14; 30; 60; 100] ∧
           User.streak user < Suggestion.target s ∧
           ∀ other, other ∈ [7; 14; 30; 60; 100] → User.streak user < other →
                    Suggestion.target s ≤ other) ∧
        ((∃ s, s ∈ suggestions ∧ Suggestion.type s = "streak")
         ↔ User.streak user < 100) ∧
        (∀ s, s ∈ suggestions → Suggestion.type s = "level_up" →
           Suggestion.progress s = User.level user ∧
           Suggestion.target s = User.level user + 1) ∧
        ((∃ s, s ∈ suggestions ∧ Suggestion.type s = "level_up")
         ↔ User.level user < 10)
  | inr _ => True
  end.
Proof.
  unfold availableAchievements, availableAchievements_body.
  destruct w as [d fs].
  match goal with
  | |- context [respond ?h ?e ?w] =>
      pattern (respond h e w).1;
      apply (post_respond h e w (λ payload _, _ payload))
  end.
  run_handler.
  all: try done.
  name_progress_rows.
  pose proof (suggestions_facts (User.level t) (User.streak t)
                (countProgress Progress.completed progressRows)
                (countProgress (λ p, Progress.completed p
                                     && bool_decide (Progress.score p >= 90))
                               progressRows)
                (bool_decide (countProgress (λ _, true) progressRows > 0)))
    as (_ & _ & _ & Hstreak & Hstreak' & Hlevel & Hlevel' & _).
  cbv zeta in *.
  exists t. split; [done|]. split_and!.
  - intros s Hs Htype. destruct (Hstreak s Hs Htype) as [Hprogress Htarget].
    split; [done|].
    destruct (nextTarget_Some _ _ _ streakTargets_sorted Htarget)
      as (Hin & Hgt & Hleast). done.
  - split.
    + intros (s & Hs & Htype). destruct (Hstreak s Hs Htype) as [_ Htarget].
      apply nextTarget_streak_Some. by eexists.
    + intros Hlt. by apply Hstreak', nextTarget_streak_Some.
  - intros s Hs Htype. by destruct (Hlevel s Hs Htype) as (_ & ? & ?).
  - split.
    + intros (s & Hs & Htype). by destruct (Hlevel s Hs Htype).
    + done.
Qed.

(** Streak 20 at level 3: the streak entry aims at 30, not at 7 or 14, the
    level entry at 4. *)
Lemma available_streak_and_level_witness :
  let user := User.mk 250 3 20 None in
  let w := healthy (Sample.db user [10; 10]) in
  let suggestions :=
    [Suggestion.mk "level_up" "Reach Level 4" 3 4;
     Suggestion.mk "streak" "30 Day Streak" 20 30;
     Suggestion.mk "perfect_score" "5 Perfect Scores" 0 5] in
  (availableAchievements "u1" w).1 = inl suggestions ∧
  (∀ s, s ∈ suggestions → Suggestion.type s = "streak" →
     Suggestion.progress s = 20 ∧
     Suggestion.target s ∈ [7; 14; 30; 60; 100] ∧
     20 < Suggestion.target s ∧
     ∀ other, other ∈ [7; 14; 30; 60; 100] → 20 < other →
              Suggestion.target s ≤ other) ∧
  ((∃ s, s ∈ suggestions ∧ Suggestion.type s = "level_up") ↔ 3 < 10).
Proof.
  intros user w suggestions.
  assert ((availableAchievements "u1" w).1 = inl suggestions) as Hout
    by (vm_compute; reflexivity).
  split; [exact Hout|].
  pose proof (available_streak_and_level "u1" w) as Hfacts.
  rewrite Hout in Hfacts.
  destruct Hfacts as (user' & Huser' & Hstreak & _ & _ & Hlevel).
  assert (Some user = Some user') as [= <-] by exact Huser'.
  split; [exact Hstreak|exact Hlevel].
Defined.

Lemma enrollment_findMany_active_nil userId d :
  (∀ languageId row,
     enrollments d !! (userId, languageId) = Some row →
     Enrollment.isActive row = false) →
  Query.enrollment_findMany_active userId d = [].
Proof.
  intros Hinactive. unfold Query.enrollment_findMany_active.
  rewrite (elem_of_nil_inv (filter _ _)); [done|].
  intros [[user languageId] row] [[Huser Hactive] Hrow]%list_elem_of_filter.
  apply elem_of_map_to_list' in Hrow. cbn in *. subst user.
  by rewrite (Hinactive _ _ Hrow) in Hactive.
Qed.

(** X22: Progress under inactive enrollments does not count: for a user
    without an active enrollment, GET /achievements/available has no
    [lesson_complete] entry, and its [perfect_score] entry stands at 0 of 5,
    whatever Progress rows the user has. *)
Theorem available_without_active_enrollment userId w :
  (∀ languageId row,
     enrollments (db w) !! (userId, languageId) = Some row →
     Enrollment.isActive row = false) →
  match (availableAchievements userId w).1 with
  | inl suggestions =>
      (∀ s, s ∈ suggestions → Suggestion.type s ≠ "lesson_complete") ∧
      (∀ s, s ∈ suggestions → Suggestion.type s = "perfect_score" →
            Suggestion.progress s = 0 ∧ Suggestion.target s = 5) ∧
      ∃ s, s ∈ suggestions ∧ Suggestion.type s = "perfect_score"
  | inr _ => True
  end.
Proof.
  intros Hinactive.
  unfold availableAchievements, availableAchievements_body.
  destruct w as [d fs].
  match goal with
  | |- context [respond ?h ?e ?w] =>
      pattern (respond h e w).1;
      apply (post_respond h e w (λ payload _, _ payload))
  end.
  run_handler.
  all: try done.
  rewrite (enrollment_findMany_active_nil userId d) by done.
  cbn [fmap list_fmap countProgress fold_left].
  rewrite (bool_decide_false (0 > 0)) by lia. cbn [app].
  change (nextTarget perfectScoreTargets 0) with (Some 5).
  split_and!.
  - intros s Hs Htype.
    repeat (apply elem_of_app in Hs; destruct Hs as [Hs|Hs]).
    + case_bool_decide; [|by apply elem_of_nil in Hs].
      apply list_elem_of_singleton in Hs as ->. done.
    + destruct (nextTarget streakTargets _); [|by apply elem_of_nil in Hs].
      apply list_elem_of_singleton in Hs as ->. done.
    + apply list_elem_of_singleton in Hs as ->. done.
  - intros s Hs Htype.
    repeat (apply elem_of_app in Hs; destruct Hs as [Hs|Hs]).
    + case_bool_decide; [|by apply elem_of_nil in Hs].
      apply list_elem_of_singleton in Hs as ->. done.
    + destruct (nextTarget streakTargets _); [|by apply elem_of_nil in Hs].
      apply list_elem_of_singleton in Hs as ->. done.
    + apply list_elem_of_singleton in Hs as ->. done.
  - exists (Suggestion.mk "perfect_score" (pretty 5 +:+ " Perfect Scores") 0 5).
    split; [|reflexivity].
    rewrite !elem_of_app. right. right. apply list_elem_of_here.
Qed.

Lemma available_without_active_enrollment_witness :
  let d := Db.set_progress
             <[("u1", "l1") := Progress.mk "e1" 95 60 true 1000]>
             (Sample.db (User.mk 9 1 8 None) [10; 10]) in
  let w := (unenroll "es" "u1" (healthy d)).2 in
  (availableAchievements "u1" (healthy d)).1
    = inl [Suggestion.mk "level_up" "Reach Level 2" 1 2;
           Suggestion.mk "streak" "14 Day Streak" 8 14;
           Suggestion.mk "lesson_complete" "Complete 10 Lessons" 1 10;
           Suggestion.mk "perfect_score" "5 Perfect Scores" 1 5] ∧
  ∃ suggestions,
    (availableAchievements "u1" w).1 = inl suggestions ∧
    ∀ s, s ∈ suggestions → Suggestion.type s ≠ "lesson_complete".
Proof.
  intros d w. split; [vm_compute; reflexivity|].
  assert (∀ languageId row,
            enrollments (db w) !! ("u1", languageId) = Some row →
            Enrollment.isActive row = false) as Hinactive.
  { intros languageId row.
    change (enrollments (db w))
      with (<[("u1", "es") := Enrollment.mk "e1" 1 false 0]>
              ({[ ("u1", "es") := Enrollment.mk "e1" 1 true 0 ]}
                 : gmap (string * string) Enrollment.t)).
    destruct (decide (languageId = "es")) as [->|Hne].
    - rewrite lookup_insert_eq. by intros [= <-].
    - rewrite lookup_insert_ne, lookup_singleton_ne by congruence. done. }
  pose proof (available_without_active_enrollment "u1" w Hinactive) as Hfacts.
  destruct (availableAchievements "u1" w).1 as [suggestions|r] eqn:Hout.
  - exists suggestions. split; [reflexivity|]. exact (proj1 Hfacts).
  - exfalso. vm_compute in Hout. discriminate Hout.
Defined.

(** ** The authentication middleware *)

Lemma split_space_not_nil s : split_space s ≠ [].
Proof.
  destruct s as [|c rest]; cbn [split_space]; [done|].
  destruct (Ascii.eqb c space); [done|]. by destruct (split_space rest).
Qed.

Lemma split_space_then_space piece rest :
  spaceless piece = true →
  split_space (piece +:+ String space rest) = piece :: split_space rest.
Proof.
  induction piece as [|c piece IH].
  - intros _. change (EmptyString +:+ String space rest) with (String space rest).
    cbn [split_space]. by rewrite Ascii.eqb_refl.
  - change (String c piece +:+ String space rest)
      with (String c (piece +:+ String space rest)).
    cbn [split_space spaceless].
    intros [Hc Hpiece]%andb_prop. apply negb_true_iff in Hc. rewrite Hc.
    by rewrite (IH Hpiece).
Qed.

Lemma split_space_spaceless piece :
  spaceless piece = true → split_space piece = [piece].
Proof.
  induction piece as [|c piece IH]; cbn [split_space spaceless]; [done|].
  intros [Hc Hpiece]%andb_prop. apply negb_true_iff in Hc. rewrite Hc.
  by rewrite (IH Hpiece).
Qed.

Lemma split_space_pieces s piece :
  piece ∈ split_space s → spaceless piece = true.
Proof.
  revert piece. induction s as [|c rest IH]; intros piece; cbn [split_space].
  - by intros ->%list_elem_of_singleton.
  - destruct (Ascii.eqb c space) eqn:Hc.
    + intros [->|Hin]%elem_of_cons; [done|]. by apply IH.
    + destruct (split_space rest) as [|first others] eqn:Hsplit.
      { by destruct (split_space_not_nil rest). }
      intros [->|Hin]%elem_of_cons.
      * cbn [spaceless]. rewrite Hc. cbn [negb andb]. apply IH. left.
      * apply IH. by right.
Qed.

(** X23: the token the middleware reads is the piece of the Authorization
    header between its first and its second space, whatever stands before the
    first space (the scheme is not compared with "Bearer") and after the
    second. A token it reads is never empty and contains no space; a header
    without a space, or with nothing between the first two spaces, gives no
    token. *)
Theorem bearerToken_reads_second_piece :
  (∀ scheme token,
     spaceless scheme = true → spaceless token = true → token ≠ EmptyString →
     bearerToken (Some (scheme +:+ String space token)) = Some token ∧
     ∀ rest, bearerToken (Some (scheme +:+ String space
                                  (token +:+ String space rest))) = Some token) ∧
  (∀ authHeader token,
     bearerToken authHeader = Some token →
     token ≠ EmptyString ∧ spaceless token = true) ∧
  (∀ authHeader, spaceless authHeader = true →
                 bearerToken (Some authHeader) = None) ∧
  (∀ scheme rest, spaceless scheme = true →
     bearerToken (Some (scheme +:+ String space (String space rest))) = None) ∧
  bearerToken None = None.
Proof.
  split_and!.
  - intros scheme token Hscheme Htoken Hne. unfold bearerToken. split.
    + rewrite split_space_then_space, split_space_spaceless by done.
      cbn [lookup list_lookup]. by destruct token.
    + intros rest. rewrite !split_space_then_space by done.
      cbn [lookup list_lookup]. by destruct token.
  - intros [authHeader|] token; [|done]. unfold bearerToken.
    destruct (split_space authHeader !! 1%nat) as [piece|] eqn:Hpiece; [|done].
    apply list_elem_of_lookup_2, split_space_pieces in Hpiece.
    destruct piece; [done|]. by intros [= <-].
  - intros authHeader Hspaceless. unfold bearerToken.
    by rewrite split_space_spaceless.
  - intros scheme rest Hscheme. unfold bearerToken.
    rewrite split_space_then_space by done.
    cbn [split_space]. by rewrite Ascii.eqb_refl.
  - done.
Qed.

Lemma bearerToken_reads_second_piece_witness :
  bearerToken (Some "Bearer abc.def") = Some "abc.def" ∧
  bearerToken (Some "Basic abc.def ignored") = Some "abc.def" ∧
  bearerToken (Some "Bearer") = None ∧
  bearerToken (Some "Bearer  abc.def") = None.
Proof.
  destruct bearerToken_reads_second_piece as (Hread & _ & Hnone & Hempty & _).
  split; [exact (proj1 (Hread "Bearer" "abc.def" eq_refl eq_refl
                          ltac:(discriminate)))|].
  split; [exact (proj2 (Hread "Basic" "abc.def" eq_refl eq_refl
                          ltac:(discriminate)) "ignored")|].
  split; [exact (Hnone "Bearer" eq_refl)|].
  exact (Hempty "Bearer" "abc.def" eq_refl).
Defined.

Lemma post_throw {A} w (Q : Step A → World → Prop) :
  Q Throw w → post throw w Q.
Proof. done. Qed.

Section AuthFacts.
Context {JwtError : Type}.
Variable verify : string → string → string + JwtError.
Variable isJsonWebTokenError isTokenExpiredError : JwtError → bool.
Variable sessions : list Session.t.

Lemma authenticateToken_passes authHeader secret now w userId user :
  (authenticateToken verify isJsonWebTokenError isTokenExpiredError sessions
     authHeader secret now w).1 = inl (userId, user) →
  ∃ token key session,
    bearerToken authHeader = Some token ∧
    secret = Some key ∧ key ≠ EmptyString ∧
    verify token key = inl userId ∧
    session ∈ sessions ∧
    Session.token session = token ∧
    Session.userId session = userId ∧
    now < Session.expiresAt session ∧
    users (db w) !! userId = Some user.
Proof.
  unfold authenticateToken, authenticateToken_body.
  destruct w as [d fs].
  match goal with
  | |- context [respond ?h ?e ?w] =>
      pattern (respond h e w).1;
      apply (post_respond h e w (λ payload _, _ payload))
  end.
  destruct (bearerToken authHeader) as [token|] eqn:Htoken;
    [|by apply post_reply].
  destruct secret as [[|c key]|]; [by apply post_throw| |by apply post_throw].
  destruct (verify token (String c key)) as [decoded|error] eqn:Hverify.
  - run_handler.
    all: try done.
    intros [= -> ->].
    match goal with
    | H : session_findFirst _ _ _ _ = Some ?s |- _ =>
        apply find_some in H as [Hin Hmatch]; exists token, (String c key), s
    end.
    apply andb_prop in Hmatch as [[Ht Hu]%andb_prop Hexp].
    apply bool_decide_eq_true in Ht, Hu, Hexp.
    split_and!; try done.
    + by apply list_elem_of_In.
    + lia.
  - destruct (isJsonWebTokenError error); [by apply post_reply|].
    destruct (isTokenExpiredError error);
      [by apply post_reply|by apply post_throw].
Qed.

Lemma authenticateToken_healthy authHeader key now d token userId session user :
  bearerToken authHeader = Some token →
  key ≠ EmptyString →
  verify token key = inl userId →
  session_findFirst sessions token userId now = Some session →
  users d !! userId = Some user →
  authenticateToken verify isJsonWebTokenError isTokenExpiredError sessions
    authHeader (Some key) now (healthy d) = (inl (userId, user), healthy d).
Proof.
  intros Htoken Hkey Hverify Hsession Huser.
  unfold authenticateToken, respond, authenticateToken_body.
  rewrite Htoken. destruct key as [|c key]; [done|]. rewrite Hverify.
  rewrite (bind_value _ _ _ _ _ (query_healthy _ _)), Hsession.
  rewrite (bind_value _ _ _ _ _ (query_healthy _ _)).
  unfold Db.user_findUnique. by rewrite Huser.
Qed.

(** X24: [authenticateToken] lets a request through only with a token that
    verifies under the configured, non-empty secret, a Session row for that
    token and user that expires after now, and a User row for the decoded id;
    [req.user] is then that row. Whatever the store does, nothing else reaches
    [next()]; with a working store, all of this suffices. *)
Theorem authenticateToken_requires_live_session authHeader secret now w userId user :
  let out := authenticateToken verify isJsonWebTokenError isTokenExpiredError
               sessions authHeader secret now w in
  (out.1 = inl (userId, user) →
   ∃ token key session,
     bearerToken authHeader = Some token ∧
     secret = Some key ∧ key ≠ EmptyString ∧
     verify token key = inl userId ∧
     session ∈ sessions ∧
     Session.token session = token ∧
     Session.userId session = userId ∧
     now < Session.expiresAt session ∧
     users (db w) !! userId = Some user) ∧
  (∀ token key session,
     faults w = [] →
     bearerToken authHeader = Some token →
     secret = Some key → key ≠ EmptyString →
     verify token key = inl userId →
     session ∈ sessions →
     Session.token session = token →
     Session.userId session = userId →
     now < Session.expiresAt session →
     users (db w) !! userId = Some user →
     out = (inl (userId, user), w)).
Proof.
  intros out. split; [apply authenticateToken_passes|].
  intros token key session Hfaults Htoken -> Hkey Hverify Hin Ht Hu Hexp Huser.
  destruct w as [d fs]. cbn in Hfaults, Huser. subst fs out.
  destruct (session_findFirst sessions token userId now) as [found|] eqn:Hfound.
  - by eapply authenticateToken_healthy.
  - exfalso. unfold session_findFirst in Hfound.
    pose proof (find_none _ _ Hfound session) as Hnone. cbv beta in Hnone.
    rewrite !bool_decide_true in Hnone by (done || lia).
    by discriminate Hnone; apply list_elem_of_In.
Qed.

Lemma authenticateToken_replies authHeader secret now w r :
  (authenticateToken verify isJsonWebTokenError isTokenExpiredError sessions
     authHeader secret now w).1 = inr r →
  body r = ErrorBody "Token expired" →
  ∃ token key error,
    verify token key = inr error ∧
    isJsonWebTokenError error = false ∧ isTokenExpiredError error = true.
Proof.
  unfold authenticateToken, authenticateToken_body.
  destruct w as [d fs].
  match goal with
  | |- context [respond ?h ?e ?w] =>
      pattern (respond h e w).1;
      apply (post_respond h e w (λ payload _, _ payload))
  end.
  destruct (bearerToken authHeader) as [token|] eqn:Htoken;
    [|apply post_reply; by intros [= <-]].
  destruct secret as [[|c key]|];
    [apply post_throw; by intros [= <-]| |apply post_throw; by intros [= <-]].
  destruct (verify token (String c key)) as [decoded|error] eqn:Hverify.
  - run_handler.
    all: try done.
    all: by intros [= <-].
  - destruct (isJsonWebTokenError error) eqn:Hjwt;
      [apply post_reply; by intros [= <-]|].
    destruct (isTokenExpiredError error) eqn:Hexpired;
      [apply post_reply; eauto 10|apply post_throw; by intros [= <-]].
Qed.

(** X25: the 401 answer "Token expired" needs an error of [jwt.verify] that is
    a [TokenExpiredError] without being a [JsonWebTokenError], because the
    [catch] tests for [JsonWebTokenError] first. When every
    [TokenExpiredError] is a [JsonWebTokenError], the middleware never gives
    that answer, whatever the store does: a token that [jwt.verify] reports
    as expired is answered 403 "Invalid token", before any persistence
    call. *)
Theorem authenticateToken_never_token_expired authHeader secret now w :
  let out := authenticateToken verify isJsonWebTokenError isTokenExpiredError
               sessions authHeader secret now w in
  (∀ error, isTokenExpiredError error = true →
            isJsonWebTokenError error = true) →
  (∀ r, out.1 = inr r → body r ≠ ErrorBody "Token expired") ∧
  (∀ token key error,
     bearerToken authHeader = Some token →
     secret = Some key → key ≠ EmptyString →
     verify token key = inr error →
     isTokenExpiredError error = true →
     out = (inr (mkResponse 403 (ErrorBody "Invalid token")), w)).
Proof.
  intros out Hsubclass. split.
  - intros r Hout Hbody.
    destruct (authenticateToken_replies _ _ _ _ _ Hout Hbody)
      as (token & key & error & _ & Hjwt & Hexpired).
    rewrite (Hsubclass _ Hexpired) in Hjwt. discriminate.
  - intros token key error Htoken -> Hkey Hverify Hexpired. subst out.
    unfold authenticateToken, respond, authenticateToken_body.
    rewrite Htoken. destruct key as [|c key]; [done|]. rewrite Hverify.
    by rewrite (Hsubclass _ Hexpired).
Qed.

(** X26: [optionalAuth] does not look at sessions: with a working store, a
    token that verifies for an existing user but has no live Session row is
    refused by [authenticateToken] with 401 "Session expired", while
    [optionalAuth] still sets [req.user] to that user. *)
Theorem optionalAuth_ignores_sessions authHeader key now d token userId user :
  bearerToken authHeader = Some token →
  key ≠ EmptyString →
  verify token key = inl userId →
  users d !! userId = Some user →
  session_findFirst sessions token userId now = None →
  authenticateToken verify isJsonWebTokenError isTokenExpiredError sessions
    authHeader (Some key) now (healthy d)
    = (inr (mkResponse 401 (ErrorBody "Session expired")), healthy d) ∧
  optionalAuth verify authHeader (Some key) (healthy d)
    = (Some (userId, user), healthy d).
Proof.
  intros Htoken Hkey Hverify Huser Hsession. split.
  - unfold authenticateToken, respond, authenticateToken_body.
    rewrite Htoken. destruct key as [|c key]; [done|]. rewrite Hverify.
    by rewrite (bind_value _ _ _ _ _ (query_healthy _ _)), Hsession.
  - unfold optionalAuth, optionalAuth_body.
    rewrite Htoken. destruct key as [|c key]; [done|]. rewrite Hverify.
    rewrite (bind_value _ _ _ _ _ (query_healthy _ _)).
    unfold Db.user_findUnique. by rewrite Huser.
Qed.
End AuthFacts.


Lemma authenticateToken_requires_live_session_witness :
  let sessions := [Session.mk "good" "u1" 5000] in
  let out := authenticateToken AuthSample.verify AuthSample.isJsonWebTokenError
               AuthSample.isTokenExpiredError sessions
               (Some "Bearer good") (Some "s3cret") 1000
               (healthy AuthSample.d) in
  out = (inl ("u1", AuthSample.user), healthy AuthSample.d).
Proof.
  intros sessions out.
  apply (proj2 (authenticateToken_requires_live_session AuthSample.verify
                  AuthSample.isJsonWebTokenError AuthSample.isTokenExpiredError
                  sessions (Some "Bearer good") (Some "s3cret") 1000
                  (healthy AuthSample.d) "u1" AuthSample.user)
           "good" "s3cret" (Session.mk "good" "u1" 5000));
    try reflexivity.
  - discriminate.
  - apply list_elem_of_here.
Defined.

Lemma authenticateToken_never_token_expired_witness :
  let out := authenticateToken AuthSample.verify AuthSample.isJsonWebTokenError
               AuthSample.isTokenExpiredError []
               (Some "Bearer old") (Some "s3cret") 1000
               (mkWorld AuthSample.d [true]) in
  AuthSample.verify "old" "s3cret" = inr true ∧
  AuthSample.isTokenExpiredError true = true ∧
  out = (inr (mkResponse 403 (ErrorBody "Invalid token")),
         mkWorld AuthSample.d [true]) ∧
  ∀ r, out.1 = inr r → body r ≠ ErrorBody "Token expired".
Proof.
  intros out.
  destruct (authenticateToken_never_token_expired AuthSample.verify
              AuthSample.isJsonWebTokenError AuthSample.isTokenExpiredError []
              (Some "Bearer old") (Some "s3cret") 1000
              (mkWorld AuthSample.d [true]))
    as [Hnever Hinvalid]; [reflexivity|].
  split; [reflexivity|]. split; [reflexivity|].
  split; [|exact Hnever].
  apply (Hinvalid "old" "s3cret" true); try reflexivity. discriminate.
Defined.

Lemma optionalAuth_ignores_sessions_witness :
  let sessions := [Session.mk "good" "u1" 500] in
  (authenticateToken AuthSample.verify AuthSample.isJsonWebTokenError
     AuthSample.isTokenExpiredError sessions
     (Some "Bearer good") (Some "s3cret") 1000 (healthy AuthSample.d)).1
    = inr (mkResponse 401 (ErrorBody "Session expired")) ∧
  (optionalAuth AuthSample.verify (Some "Bearer good") (Some "s3cret")
     (healthy AuthSample.d)).1 = Some ("u1", AuthSample.user).
Proof.
  intros sessions.
  destruct (optionalAuth_ignores_sessions AuthSample.verify
              AuthSample.isJsonWebTokenError AuthSample.isTokenExpiredError
              sessions (Some "Bearer good") "s3cret" 1000 AuthSample.d
              "good" "u1" AuthSample.user)
    as [Hstrict Hoptional]; try reflexivity; [discriminate|].
  split; [exact (f_equal fst Hstrict)|exact (f_equal fst Hoptional)].
Defined.

(** ** Perfect scores, as counted and as awarded *)

Lemma length_filter_Permutation {A} (keep : A → bool) (l1 l2 : list A) :
  l1 ≡ₚ l2 → length (List.filter keep l1) = length (List.filter keep l2).
Proof.
  induction 1 as [|x l1 l2 _ IH|x y l|l1 l2 l3 _ IH1 _ IH2]; cbn.
  - done.
  - destruct (keep x); cbn; by rewrite IH.
  - by destruct (keep x), (keep y).
  - by rewrite IH1.
Qed.

Lemma progress_of_after_upsert keep enrollment d d' key row :
  progress d' = <[key := row]> (progress d) →
  keep row = false →
  (length (List.filter keep (Query.progress_of enrollment d'))
   ≤ length (List.filter keep (Query.progress_of enrollment d)))%nat.
Proof.
  intros Hprogress Hrow. unfold Query.progress_of. rewrite Hprogress.
  set (others := delete key (progress d)).
  set (mine := λ entry : string * string * Progress.t,
                 Progress.enrollmentId entry.2 = Enrollment.id enrollment).
  assert (map_to_list (<[key := row]> (progress d))
          ≡ₚ (key, row) :: map_to_list others) as Hnew.
  { rewrite <- insert_delete_eq. apply map_to_list_insert, lookup_delete_eq. }
  assert (∃ olds, map_to_list (progress d) ≡ₚ olds ++ map_to_list others)
    as [olds Hold].
  { destruct (progress d !! key) as [old|] eqn:Hfound.
    - exists [(key, old)]. cbn [app].
      rewrite <- (insert_delete_id (progress d) key old) at 1 by done.
      apply map_to_list_insert, lookup_delete_eq.
    - exists []. unfold others. by rewrite delete_id. }
  rewrite (length_filter_Permutation keep _
             (snd <$> filter mine ((key, row) :: map_to_list others)))
    by (by rewrite Hnew).
  rewrite (length_filter_Permutation keep
             (snd <$> filter mine (map_to_list (progress d)))
             (snd <$> filter mine (olds ++ map_to_list others)))
    by (by rewrite Hold).
  rewrite filter_cons, filter_app, fmap_app, List.filter_app, length_app.
  case_decide; cbn [fmap list_fmap snd List.filter]; [rewrite Hrow|]; lia.
Qed.

Lemma countProgress_le keep (before after : Enrollment.t → list Progress.t)
    (enrollments : list Enrollment.t) :
  (∀ enrollment,
     (length (List.filter keep (after enrollment))
      ≤ length (List.filter keep (before enrollment)))%nat) →
  countProgress keep (after <$> enrollments)
  ≤ countProgress keep (before <$> enrollments).
Proof.
  intros Hle. unfold countProgress.
  enough (∀ acc acc', acc ≤ acc' →
            fold_left (λ sum rows, sum + Z.of_nat (length (List.filter keep rows)))
              (after <$> enrollments) acc
            ≤ fold_left (λ sum rows, sum + Z.of_nat (length (List.filter keep rows)))
                (before <$> enrollments) acc') as Hgen by (apply Hgen; lia).
  induction enrollments as [|enrollment enrollments IH]; intros acc acc' Hacc;
    cbn [fmap list_fmap fold_left]; [done|].
  apply IH. specialize (Hle enrollment). lia.
Qed.

Lemma available_perfect_progress userId w :
  match (availableAchievements userId w).1 with
  | inl suggestions =>
      ∀ s, s ∈ suggestions → Suggestion.type s = "perfect_score" →
        Suggestion.progress s
        = countProgress
            (λ p, Progress.completed p && bool_decide (Progress.score p >= 90))
            ((λ enrollment, Query.progress_of enrollment (db w))
               <$> Query.enrollment_findMany_active userId (db w))
  | inr _ => True
  end.
Proof.
  unfold availableAchievements, availableAchievements_body.
  destruct w as [d fs].
  match goal with
  | |- context [respond ?h ?e ?w] =>
      pattern (respond h e w).1;
      apply (post_respond h e w (λ payload _, _ payload))
  end.
  run_handler.
  all: try done.
  name_progress_rows.
  pose proof (suggestions_facts (User.level t) (User.streak t)
                (countProgress Progress.completed progressRows)
                (countProgress (λ p, Progress.completed p
                                     && bool_decide (Progress.score p >= 90))
                               progressRows)
                (bool_decide (countProgress (λ _, true) progressRows > 0)))
    as (_ & _ & _ & _ & _ & _ & _ & _ & Hperfect).
  cbv zeta in *. intros s Hs Htype. by destruct (Hperfect s Hs Htype).
Qed.

(** X27: the [perfect_score] progress of GET /achievements/available counts
    completed rows with a score of 90 or more, whatever the lesson is worth:
    completing a lesson whose exercises sum to less than 90 points never
    raises it, full marks or not. *)
Theorem perfect_progress_needs_ninety_points
    lessonId userId score timeSpent now w fs fs' before after s s' :
  let out := completeLesson lessonId userId score timeSpent now w in
  status out.1 = 200 →
  totalPoints (Db.exercise_findMany_active lessonId (db w)) < 90 →
  (availableAchievements userId (mkWorld (db w) fs)).1 = inl before →
  (availableAchievements userId (mkWorld (db out.2) fs')).1 = inl after →
  s ∈ before → Suggestion.type s = "perfect_score" →
  s' ∈ after → Suggestion.type s' = "perfect_score" →
  Suggestion.progress s' ≤ Suggestion.progress s.
Proof.
  intros out Hok Htotal Hbefore Hafter Hs Htype Hs' Htype'.
  destruct (completeLesson_ok _ _ _ _ _ _ Hok)
    as (lesson & enrollment & _ & _ & _ & Hdb).
  cbv zeta in Hdb. fold out in Hdb.
  pose proof (available_perfect_progress userId (mkWorld (db w) fs)) as Hold.
  pose proof (available_perfect_progress userId (mkWorld (db out.2) fs')) as Hnew.
  rewrite Hbefore in Hold. rewrite Hafter in Hnew. cbn [db] in Hold, Hnew.
  rewrite (Hold s Hs Htype), (Hnew s' Hs' Htype').
  assert (Query.enrollment_findMany_active userId (db out.2)
          = Query.enrollment_findMany_active userId (db w)) as ->.
  { unfold Query.enrollment_findMany_active. by rewrite Hdb. }
  apply countProgress_le. intros active.
  eapply progress_of_after_upsert.
  - by rewrite Hdb.
  - unfold completedRow.
    destruct (progress (db w) !! (userId, lessonId)); cbn;
      apply bool_decide_eq_false; lia.
Qed.

Lemma perfect_progress_needs_ninety_points_witness :
  let d := Sample.db (User.mk 0 1 0 None) [10; 10] in
  let out := completeLesson "l1" "u1" 20 60 1000 (healthy d) in
  let entry := Suggestion.mk "perfect_score" "5 Perfect Scores" 0 5 in
  achievements (db out.2) = [perfectScoreAchievement "u1" Sample.lesson] ∧
  (availableAchievements "u1" (healthy (db out.2))).1
    = inl [Suggestion.mk "level_up" "Reach Level 2" 1 2;
           Suggestion.mk "streak" "7 Day Streak" 0 7;
           Suggestion.mk "lesson_complete" "Complete 10 Lessons" 1 10;
           entry] ∧
  Suggestion.progress entry ≤ Suggestion.progress entry.
Proof.
  intros d out entry. split; [vm_compute; reflexivity|].
  split; [vm_compute; reflexivity|].
  apply (perfect_progress_needs_ninety_points
           "l1" "u1" 20 60 1000 (healthy d) [] []
           [Suggestion.mk "level_up" "Reach Level 2" 1 2;
            Suggestion.mk "streak" "7 Day Streak" 0 7;
            entry]
           [Suggestion.mk "level_up" "Reach Level 2" 1 2;
            Suggestion.mk "streak" "7 Day Streak" 0 7;
            Suggestion.mk "lesson_complete" "Complete 10 Lessons" 1 10;
            entry]
           entry entry).
  - vm_compute; reflexivity.
  - vm_compute; reflexivity.
  - vm_compute; reflexivity.
  - vm_compute; reflexivity.
  - do 2 apply list_elem_of_further. apply list_elem_of_here.
  - reflexivity.
  - do 3 apply list_elem_of_further. apply list_elem_of_here.
  - reflexivity.
Defined.
